(* ===== verification/_CoqProject ===== *)
-Q . S2P
Prelude.v
Config.v
Hasher.v
User.v
Store.v
Api.v
App.v
Lockout.v
Spec.v
Concurrency.v
