(* ===== verification/Prelude.v ===== *)
(** * AuthCore: a verification development of the Flask credential service

    ** The program

    The repository is a Flask application in three source files.
    - [src/config.py]: the class [Config]: secret key, database URI and the
      lockout parameters [LOCKOUT_ATTEMPTS = 3], [LOCKOUT_DURATION_MINUTES = 2].
    - [src/models.py]: the SQLAlchemy model [User] of the [users] table
      ([id], unique [username], [password_hash], nullable
      [failed_login_attempts] with default 0, nullable [lockout_until]) and
      its methods [set_password] / [check_password] (flask_bcrypt) and
      [is_locked].
    - [src/app.py]: [create_app], which loads the configuration, forces the
      database URI under the instance folder and registers five page routes
      and four JSON views: [api_register], [api_login] (the progressive
      lockout), [api_get_users], [api_reset_password].
    Every view reads at most one row ([User.query.filter_by(...).first()]),
    changes the loaded object in Python and calls [db.session.commit()].
    The views share nothing but the SQLite database; [app.run()] serves
    requests on several threads.

    ** The files

    - [Prelude] (this file): Python values ([dict.get] with JSON's
      last-key-wins, truthiness of [data.get(k)], [datetime] as integer
      microseconds, [timedelta(minutes=m)]), the tactic [concrete] that
      discharges hypotheses at concrete inputs, the hint databases
      [authcore] (resolve) and [authcore_rw] (rewrite, [>=?] under a [lia]
      side condition), and the list lemmas the components share.
    - [Config] ([Module Config]): [Config_of_env] evaluates the class
      attributes over an environment after [load_dotenv];
      [create_app_config] is the URI override of [create_app];
      [lockout_duration] is the window; [config_ok] the spec's positivity.
    - [Hasher]: [Class PasswordHasher], the contract the code needs from
      flask_bcrypt: [check_password_hash (generate_password_hash s p) q]
      holds iff [p] and [q] have the same [password_key].  Salts are inputs.
      [ideal_bcrypt] is a collision-free instance whose key is bcrypt's: the
      first 72 bytes.  Every theorem is stated over any instance; the
      concrete witnesses use [ideal_bcrypt].
    - [User] ([Section User]): the [User] record with its column types and
      the three methods, one definition each.
    - [Store]: the table as its rows in rowid order; [query_first]; the unit
      of work [Flush] that [db.session.commit()] sends ([flush_update] keeps
      the attributes whose value changed, as SQLAlchemy's history does);
      [commit] with the database's constraints (the [UNIQUE] username index
      rejects an insert, an update matching no row is rejected); the table
      invariant [table_wf] and its preservation ([commit_wf]).
    - [Api]: each view as [api_*_plan] (response and unit of work computed
      from the rows it reads, every branch and early return of the source,
      the exception branches answering [500]) and [run_handler] (the commit;
      a refused commit answers [500] and leaves the table as it was); the URL
      map [url_map] / [app_handle] with Flask's routing: [404] for an unknown
      path, the automatic [OPTIONS] answer on every rule and [HEAD] on every
      [GET] rule ([rule_methods]), [405] otherwise; [response_ok], the shape
      of every answer.  The tactic [handler_branch] reduces a handler to the
      plan lemma of one branch.
    - [App]: [create_app] (configuration and the table [db.create_all()]
      leaves) and [serve], [app.run()] answering requests one after the
      other; sessions: a name registered twice, the login after a reset,
      the growth of the counters.
    - [Lockout]: [login_run], logins one after the other; the theorems about
      runs of logins and the guess budget of a lockout window.
    - [Spec] ([Module Authenticator]): the abstract specification of
      spec.md §4 (abstract users keyed by name, the outcomes of §7), the
      abstraction relation [abs], and one refinement theorem per operation.
    - [Concurrency]: the interleaving semantics of concurrent views:
      [thread_step] (read phase, commit phase, refused commit, store error)
      and [step] (a thread moves or the clock does); an invariant of every
      reachable world, termination and progress of the request threads,
      serial schedules as the sequential handlers (lemmas that tie the
      model to Api.v), and the races of spec §5.

    ** The theorems

    - Functional behaviour of every branch of [api_login],
      [api_register] and [api_reset_password] (Api), stated as exact
      equations on the response and the table.
    - The lockout state machine over runs (Lockout): no lock below the
      threshold, the lock on exactly the [LOCKOUT_ATTEMPTS]-th consecutive
      failure, acceptance after expiry; the login after a reset, through
      the router (App).
    - Invariants: [app_handle_wf] (every request keeps the table well
      formed), [app_handle_lockout_fresh] (a lockout is strictly in the
      future when set), [app_handle_lock_consistent] (a row with a lockout
      has at least [LOCKOUT_ATTEMPTS] recorded failures), [reachable_wf] (the table stays well formed in every
      interleaving; usernames stay unique thanks to the [UNIQUE] index).
    - Bounds: of any wrong passwords sent one after the other within one
      lockout window, at most [LOCKOUT_ATTEMPTS] are checked
      ([guesses_per_window]); a session of [k] requests raises a counter
      by at most [k] ([serve_counter_bound]).
    - Types: every answer of [app_handle] has the status and body shape its
      kind promises ([app_handle_response_ok]).
    - Sessions (App): a name registered twice answers [201] then [409]
      ([register_twice]).
    - Refinement (Spec): [api_login_refines], [api_register_refines],
      [api_reset_password_refines]: the status code is the abstract outcome
      and the new table implements the new abstract state; [serve_refines]
      composes them into a simulation of whole sessions.
    - Usernames: a wrong password below the threshold is answered as an
      unknown name is ([api_login_hides_unknown_user]), but [GET /api/users]
      lists every name to any client ([api_get_users_reveals_usernames]).
    - Findings, proved as theorems: the counter is not reset when a lockout
      expires ([relock_after_expiry]); a reset with a wrong old password is
      never counted and answers differently on a locked account
      ([api_reset_password_rejected], [api_reset_password_locked]), so any
      number of guesses through the reset endpoint leave the account as it
      was, an unthrottled password oracle; concurrent logins lose
      increments ([lost_update]), so a batch of concurrent wrong passwords
      of any size is checked in full while the counter moves by one
      ([concurrent_guesses_unbounded]) and the lockout bounds batches, not
      guesses; a successful login racing with the
      locking attempt answers [200] but leaves the account locked with a
      zero counter ([success_race_stays_locked]); concurrent registrations
      of one name answer [500] ([concurrent_register_race]).

    ** Bounds and choices

    No definition needs fuel: every function is structural (runs recurse on
    the list of requests).  Integers are [Z]: Python's [int] does not wrap,
    and the counter grows by at most one per request ([serve_counter_bound]),
    far below SQLite's 64-bit [INTEGER] in any session a server can answer.  Time is [Z] microseconds, the resolution of
    [datetime]; both [datetime.utcnow()] reads of one login are the same
    instant [now].  A request body is JSON: an object whose fields are
    strings or absent, or another JSON value, on which [data.get] raises.
    The termination of the concurrent model is measured, not fuelled:
    [pending] counts two moves for a waiting request and one for a computed
    response, and each move consumes exactly one ([thread_steps_bounded]).
    The serial schedules of the concurrent semantics compute the handlers
    of Api.v ([serial_schedule]), so the sequential theorems describe one
    of its behaviours.  The guess budget is
    stated for any window of the configured length ending at [t_end]: a
    lock set inside it lasts at least until [t_end].

    ** Not modelled

    HTML templates (not in the sources: a page is its template's name),
    [os.makedirs], the initialisation of the extensions and the server's
    sockets; response headers other than [Allow]; bodies that are not JSON
    at all (Flask answers them before the view, with a status that depends
    on its version) and objects with non-string field values; the key
    order and formatting of [jsonify]; bcrypt's cost and timing (the enumeration side channel of spec §9); [datetime] overflow
    near year 9999; [SECRET_KEY], which no view uses; the page views as
    threads of the concurrency model (they read no shared state); the
    [/static/<path:filename>] rule that [Flask(__name__)] registers for the
    default static folder (the repository has no static folder, so its
    [GET] and [HEAD] answer [404] as an unknown path does in [app_handle],
    while its [OPTIONS] would answer [200] and other methods [405]); the
    [ValueError] that bcrypt 5.0 and later raise on a password longer than
    72 bytes ([ideal_bcrypt] keeps the truncation of the earlier releases,
    and the theorems hold for any hasher meeting the contract).
    These are why three components stay partly modelled: password hashing
    is the flask_bcrypt library, of which the model keeps the contract the
    code relies on; the page routes render templates that the repository
    does not contain; start-up beyond the configuration and the table is
    file-system and socket I/O.  The remaining unmapped source lines are
    imports, docstrings and the creation of the extension objects. *)

From Stdlib Require Export ZArith Lia.
From stdpp Require Export base list strings decidable options.

Open Scope Z_scope.

Declare Scope authcore_scope.
Delimit Scope authcore_scope with authcore.

(** ** Python values used by the handlers

    A JSON request body is a Python [dict] of strings: [request.get_json()]
    builds it with [json.loads], where a key given twice keeps its last
    value.  [data.get(k)] returns [None] for a missing key. *)
Definition PyDict := list (string * string).

Definition dict_get (d : PyDict) (k : string) : option string :=
  fold_left (fun acc kv => if bool_decide (kv.1 = k) then Some kv.2 else acc) d None.

Notation "d ⟨ k ⟩" := (dict_get d k) (at level 1, format "d ⟨ k ⟩") : authcore_scope.

(** [if not x] on a value of [data.get]: [None] and [""] are falsy.
    [truthy_value] returns the value when it is truthy. *)
Definition truthy_value (o : option string) : option string :=
  match o with
  | Some s => if bool_decide (s = ""%string) then None else Some s
  | None => None
  end.

(** ** Time

    [datetime.utcnow()] values as integers: microseconds since the epoch,
    the resolution of Python's [datetime].  [timedelta(minutes=m)] is
    [m * 60 * 10^6] microseconds. *)
Definition datetime := Z.

Definition timedelta_minutes (m : Z) : Z := m * 60 * 1000000.

(** ** Tactics shared by the component files *)

(** Discharge a hypothesis of a theorem at a concrete input: by
    computation, by arithmetic, or by evaluating a decidable proposition. *)
Ltac concrete := first [ reflexivity | lia | split_and!; reflexivity
                       | apply (bool_decide_unpack _); vm_compute; exact I
                       | intros ? [= <-]; reflexivity ].

Create HintDb authcore discriminated.
Create Rewrite HintDb authcore_rw.

(** ** Generic lemmas *)

Lemma truthy_value_Some o s :
  truthy_value o = Some s <-> o = Some s /\ s <> ""%string.
Proof.
  destruct o as [s'|]; simpl; [|naive_solver].
  case_bool_decide; naive_solver.
Qed.

(** Integers: Python's [a >= b] on [int]. *)
Lemma geb_false (a b : Z) : a < b -> (a >=? b) = false.
Proof. intros. rewrite Z.geb_leb. by apply Z.leb_gt. Qed.

Lemma geb_true (a b : Z) : b <= a -> (a >=? b) = true.
Proof. intros. rewrite Z.geb_leb. by apply Z.leb_le. Qed.

(** Lists. *)
Lemma find_app {A} (p : A -> bool) (l1 l2 : list A) :
  find p (l1 ++ l2) = match find p l1 with Some x => Some x | None => find p l2 end.
Proof. induction l1 as [|x l1 IH]; simpl; [done|]. by destruct (p x). Qed.

Lemma NoDup_map_in_eq {A B} (f : A -> B) (l : list A) x y :
  NoDup (map f l) -> In x l -> In y l -> f x = f y -> x = y.
Proof.
  induction l as [|z l IH]; simpl; [done|].
  intros Hnd Hx Hy Hf. apply list.NoDup_cons in Hnd as [Hz Hnd].
  destruct Hx as [<-|Hx], Hy as [<-|Hy]; try done.
  - exfalso. apply Hz. rewrite Hf. apply list_elem_of_In, in_map, Hy.
  - exfalso. apply Hz. rewrite <-Hf. apply list_elem_of_In, in_map, Hx.
  - by apply IH.
Qed.

Lemma In_map_elem {A B} (f : A -> B) (l : list A) x : In x l -> f x ∈ map f l.
Proof. intros. apply list_elem_of_In, in_map. done. Qed.

#[export] Hint Resolve In_map_elem : authcore.

Lemma omap_map_Some {A B C} (f : B -> option C) (g : A -> B) (h : A -> C) (l : list A) :
  (forall x, f (g x) = Some (h x)) -> omap f (map g l) = map h l.
Proof. intros Hfg. induction l as [|x l IH]; [done|]. simpl in *. rewrite Hfg. by f_equal. Qed.

(** Dictionaries: a binding of the second part of a concatenation hides
    the bindings of the first. *)
Lemma dict_get_fold d k acc :
  fold_left (fun acc kv => if bool_decide (kv.1 = k) then Some kv.2 else acc) d acc =
  match dict_get d k with Some v => Some v | None => acc end.
Proof.
  unfold dict_get. revert acc. induction d as [|[k' v'] d IH]; intros acc; simpl; [done|].
  rewrite (IH (if bool_decide (k' = k) then Some v' else acc)), (IH (if bool_decide (k' = k) then Some v' else None)).
  by case_bool_decide; destruct (fold_left _ d None).
Qed.

Lemma dict_get_app d1 d2 k :
  dict_get (d1 ++ d2) k = match dict_get d2 k with Some v => Some v | None => dict_get d1 k end.
Proof. unfold dict_get at 1. by rewrite fold_left_app, dict_get_fold. Qed.

(** A missing value reads as the empty string. *)
Lemma truthy_value_default o :
  truthy_value o = if bool_decide (default ""%string o = ""%string) then None else Some (default ""%string o).
Proof. by destruct o. Qed.

#[export] Hint Rewrite geb_false geb_true using lia : authcore_rw.
