(* ===== verification/Config.v ===== *)
(** * Config: [src/config.py] and the configuration step of [create_app]

    [Config] is the class of [src/config.py]; its environment lookups
    ([os.environ.get] after [load_dotenv]) are modelled on an explicit
    environment dictionary.  [create_app_config] is the part of
    [create_app] (src/app.py) that changes the configuration: the database
    URI is forced under the instance folder. *)
From S2P Require Import Prelude.

Module Config.

Record Config := mkConfig {
SECRET_KEY : string;
SQLALCHEMY_DATABASE_URI : string;
SQLALCHEMY_TRACK_MODIFICATIONS : bool;
LOCKOUT_ATTEMPTS : Z;
LOCKOUT_DURATION_MINUTES : Z
}.

(** [load_dotenv()] adds the variables of the [.env] file to the process
  environment without overriding those already set.  With the
  last-binding-wins lookup of [dict_get], the environment is written
  after the [.env] entries. *)
Definition load_dotenv (dotenv environ : PyDict) : PyDict := dotenv ++ environ.

Definition os_environ_get (environ : PyDict) (k dflt : string) : string :=
default dflt (dict_get environ k).

(** The class attributes of [Config], evaluated at import time. *)
Definition Config_of_env (environ : PyDict) : Config := {|
SECRET_KEY := os_environ_get environ "SECRET_KEY" "a_default_fallback_secret_key";
SQLALCHEMY_DATABASE_URI := os_environ_get environ "DATABASE_URI" "sqlite:///app.db";
SQLALCHEMY_TRACK_MODIFICATIONS := false;
LOCKOUT_ATTEMPTS := 3;
LOCKOUT_DURATION_MINUTES := 2
|}.

(** [os.path.join(a, b)] for a relative [b]. *)
Definition path_join (a b : string) : string :=
if bool_decide (a = ""%string) then b
else if bool_decide (String.substring (String.length a - 1) 1 a = "/"%string)
then (a ++ b)%string else (a ++ "/" ++ b)%string.

(** [create_app]: [app.config.from_object(config_class)] followed by the
  override of [SQLALCHEMY_DATABASE_URI]. *)
Definition create_app_config (cfg : Config) (instance_path : string) : Config := {|
SECRET_KEY := SECRET_KEY cfg;
SQLALCHEMY_DATABASE_URI := ("sqlite:///" ++ path_join instance_path "app.db")%string;
SQLALCHEMY_TRACK_MODIFICATIONS := SQLALCHEMY_TRACK_MODIFICATIONS cfg;
LOCKOUT_ATTEMPTS := LOCKOUT_ATTEMPTS cfg;
LOCKOUT_DURATION_MINUTES := LOCKOUT_DURATION_MINUTES cfg
|}.

(** The lockout window, [timedelta(minutes=LOCKOUT_DURATION_MINUTES)]. *)
Definition lockout_duration (cfg : Config) : Z :=
timedelta_minutes (LOCKOUT_DURATION_MINUTES cfg).

(** The configuration the code's lemmas assume: a positive threshold and a
  positive window, as the spec requires of [LOCKOUT_ATTEMPTS] and
  [LOCKOUT_DURATION]. *)
Definition config_ok (cfg : Config) : Prop :=
0 < LOCKOUT_ATTEMPTS cfg /\ 0 < LOCKOUT_DURATION_MINUTES cfg.

Lemma config_ok_duration cfg : config_ok cfg -> 0 < lockout_duration cfg.
Proof. unfold config_ok, lockout_duration, timedelta_minutes. lia. Qed.

End Config.
