(* ===== verification/Hasher.v ===== *)
(** * Hasher: the password-hashing primitive (flask_bcrypt)

    [src/models.py] hashes with [bcrypt.generate_password_hash] and checks
    with [bcrypt.check_password_hash]; both belong to flask_bcrypt, a
    library the sources call.  The class [PasswordHasher] is the contract
    the model relies on: a check succeeds exactly when the candidate has the
    same [password_key] as the hashed password.  [ideal_bcrypt] discharges
    it for bcrypt, whose key is the first 72 bytes of the password (bcrypt
    ignores the rest, up to release 4; release 5.0 raises [ValueError] on
    a longer password instead, which is not modelled); it is
    collision-free, the usual idealisation of a cryptographic hash. *)
From S2P Require Import Prelude.

Class PasswordHasher := {
  Salt : Type;
  Digest : Type;
  digest_eq_dec :: EqDecision Digest;
  generate_password_hash : Salt -> string -> Digest;
  check_password_hash : Digest -> string -> bool;
  password_key : string -> string;
  check_generate s p q :
    check_password_hash (generate_password_hash s p) q = bool_decide (password_key p = password_key q)
}.

(** bcrypt reads at most 72 bytes of the password. *)
Definition BCRYPT_MAX_BYTES : nat := 72.

Definition bcrypt_key (p : string) : string := String.substring 0 BCRYPT_MAX_BYTES p.

Definition ideal_bcrypt : PasswordHasher.
Proof.
  refine {|
    Salt := Z;
    Digest := Z * string;
    generate_password_hash s p := (s, bcrypt_key p);
    check_password_hash d q := bool_decide (d.2 = bcrypt_key q);
    password_key := bcrypt_key
  |}.
  intros s p q. simpl. apply bool_decide_ext. done.
Defined.

