(* ===== verification/User.v ===== *)
(** * User: the SQLAlchemy model of [src/models.py]

    A row of the [users] table as a record with the model's five columns.
    [failed_login_attempts] is a nullable integer column ([default=0]
    applies at insert time), hence [option Z]; [lockout_until] is a nullable
    [DateTime].  The methods [set_password], [check_password] and
    [is_locked] are functions of the row; the hasher is the interface of
    Hasher.v. *)
From S2P Require Import Prelude Hasher.

Section User.
Context `{PasswordHasher}.

Record User := mkUser {
  id : Z;
  username : string;
  password_hash : Digest;
  failed_login_attempts : option Z;
  lockout_until : option datetime
}.

#[global] Instance User_eq_dec : EqDecision User.
Proof. solve_decision. Defined.

(** Attribute assignments of the handlers ([user.x = v]). *)
Definition set_password_hash (u : User) (d : Digest) : User :=
  mkUser (id u) (username u) d (failed_login_attempts u) (lockout_until u).
Definition set_failed_login_attempts (u : User) (n : option Z) : User :=
  mkUser (id u) (username u) (password_hash u) n (lockout_until u).
Definition set_lockout_until (u : User) (t : option datetime) : User :=
  mkUser (id u) (username u) (password_hash u) (failed_login_attempts u) t.

(** [User.set_password]: [self.password_hash = bcrypt.generate_password_hash(password)]. *)
Definition set_password (s : Salt) (u : User) (password : string) : User :=
  set_password_hash u (generate_password_hash s password).

(** [User.check_password]. *)
Definition check_password (u : User) (password : string) : bool :=
  check_password_hash (password_hash u) password.

(** [User.is_locked]: [self.lockout_until and self.lockout_until > datetime.utcnow()]. *)
Definition is_locked (u : User) (now : datetime) : bool :=
  match lockout_until u with
  | Some t => t >? now
  | None => false
  end.

(** [User.__repr__]. *)
Definition repr (u : User) : string := ("<User " ++ username u ++ ">")%string.

(** ** Lemmas on the model *)

Lemma is_locked_true u now :
  is_locked u now = true <-> exists t, lockout_until u = Some t /\ now < t.
Proof.
  unfold is_locked. destruct (lockout_until u) as [t|]; [|naive_solver].
  rewrite Z.gtb_ltb, Z.ltb_lt. naive_solver.
Qed.

Lemma is_locked_false u now :
  is_locked u now = false <-> forall t, lockout_until u = Some t -> t <= now.
Proof.
  unfold is_locked. destruct (lockout_until u) as [t|]; [|naive_solver].
  rewrite Z.gtb_ltb, Z.ltb_ge. naive_solver.
Qed.

End User.

Arguments User {_}.
Arguments mkUser {_}.

