(* ===== verification/Store.v ===== *)
(** * Store: the [users] table and the SQLAlchemy session

    The table is the list of its rows in rowid order, which is the order of
    [User.query.all()].  A handler reads rows ([User.query.filter_by(...)
    .first()]), changes attributes of the loaded objects in Python, and
    [db.session.commit()] flushes what changed: a pending [INSERT]
    ([db.session.add]) or an [UPDATE users SET <changed columns> WHERE id = ?].
    [Flush] is that unit of work, computed from the loaded row and the
    modified object by [flush_update], which keeps only the attributes whose
    value changed, as SQLAlchemy's attribute history does.  [commit] applies a
    flush to the table with the database's constraints: the [UNIQUE]
    username index rejects a duplicate insert ([IntegrityError]) and an
    update that matches no row fails ([StaleDataError]); both are [None].
    New rows get [INTEGER PRIMARY KEY] rowids, one more than the largest. *)
From S2P Require Import Prelude Hasher User.

Section Store.
Context `{PasswordHasher}.

Definition Table := list User.

(** [User.query.filter_by(username=name).first()]. *)
Definition query_first (tbl : Table) (name : string) : option User :=
  find (fun u => bool_decide (username u = name)) tbl.

(** One [SET] clause of an [UPDATE users ...] statement. *)
Inductive Column :=
| ColPasswordHash (d : Digest)
| ColFailed (n : option Z)
| ColLockout (t : option datetime).

Inductive Flush :=
| FInsert (name : string) (h : Digest)
| FUpdate (uid : Z) (cols : list Column).

(** [new_user = User(username=username)] ([User.__init__] sets only the
    name) followed by [new_user.set_password(password)]: the object that
    [db.session.add] stages for insertion. *)
Definition new_user (s : Salt) (name pw : string) : Flush :=
  FInsert name (generate_password_hash s pw).

(** The attributes of [new] that differ from the loaded row [old]. *)
Definition dirty_columns (old new : User) : list Column :=
  (if bool_decide (password_hash old = password_hash new) then []
   else [ColPasswordHash (password_hash new)]) ++
  (if bool_decide (failed_login_attempts old = failed_login_attempts new) then []
   else [ColFailed (failed_login_attempts new)]) ++
  (if bool_decide (lockout_until old = lockout_until new) then []
   else [ColLockout (lockout_until new)]).

(** The flush of a session that loaded [old] and modified it into [new];
    no statement at all when nothing changed. *)
Definition flush_update (old new : User) : option Flush :=
  match dirty_columns old new with
  | [] => None
  | cols => Some (FUpdate (id old) cols)
  end.

Definition apply_column (u : User) (c : Column) : User :=
  match c with
  | ColPasswordHash d => set_password_hash u d
  | ColFailed n => set_failed_login_attempts u n
  | ColLockout t => set_lockout_until u t
  end.

Definition apply_columns (u : User) (cols : list Column) : User :=
  fold_left apply_column cols u.

(** [UPDATE users SET cols WHERE id = uid]; SQLAlchemy checks that one row
    matched. *)
Definition update_row (uid : Z) (cols : list Column) (tbl : Table) : option Table :=
  if bool_decide (uid ∈ map id tbl)
  then Some (map (fun u => if bool_decide (id u = uid) then apply_columns u cols else u) tbl)
  else None.

(** The rowid SQLite assigns to a new row. *)
Definition new_rowid (tbl : Table) : Z := 1 + foldr Z.max 0 (map id tbl).

(** [INSERT INTO users (username, password_hash, failed_login_attempts,
    lockout_until)]: the column default [0] for the counter, [NULL] for
    the lockout; the unique index on [username] rejects a duplicate. *)
Definition insert_row (name : string) (h : Digest) (tbl : Table) : option Table :=
  if bool_decide (name ∈ map username tbl) then None
  else Some (tbl ++ [mkUser (new_rowid tbl) name h (Some 0) None]).

(** [db.session.commit()]. *)
Definition commit (tbl : Table) (fl : option Flush) : option Table :=
  match fl with
  | None => Some tbl
  | Some (FInsert name h) => insert_row name h tbl
  | Some (FUpdate uid cols) => update_row uid cols tbl
  end.

(** The table after the row with [old]'s id is replaced by [new]. *)
Definition replace_user (tbl : Table) (old new : User) : Table :=
  map (fun u => if bool_decide (id u = id old) then new else u) tbl.

(** ** The table invariant

    Usernames and ids are unique, ids are positive, and every counter is a
    non-negative integer (never [NULL]). *)
Definition row_ok (u : User) : Prop :=
  0 < id u /\ match failed_login_attempts u with Some n => 0 <= n | None => False end.

Definition table_wf (tbl : Table) : Prop :=
  NoDup (map username tbl) /\ NoDup (map id tbl) /\ Forall row_ok tbl.

#[global] Instance row_ok_dec u : Decision (row_ok u).
Proof. unfold row_ok. destruct (failed_login_attempts u); solve_decision. Defined.

#[global] Instance table_wf_dec tbl : Decision (table_wf tbl).
Proof. unfold table_wf. solve_decision. Defined.

Definition column_ok (c : Column) : Prop :=
  match c with
  | ColFailed (Some n) => 0 <= n
  | ColFailed None => False
  | _ => True
  end.

Definition flush_ok (fl : option Flush) : Prop :=
  match fl with
  | Some (FUpdate _ cols) => Forall column_ok cols
  | _ => True
  end.

(** ** Lookup *)

Lemma query_first_Some tbl name u :
  query_first tbl name = Some u -> In u tbl /\ username u = name.
Proof.
  unfold query_first. intros Hf. apply find_some in Hf as [Hin Hb].
  by apply bool_decide_eq_true in Hb.
Qed.

Lemma query_first_None tbl name :
  query_first tbl name = None <-> name ∉ map username tbl.
Proof.
  unfold query_first. induction tbl as [|u tbl IH]; simpl.
  - split; [intros _; apply not_elem_of_nil|done].
  - rewrite not_elem_of_cons. case_bool_decide; naive_solver.
Qed.

Lemma query_first_unique tbl u :
  NoDup (map username tbl) -> In u tbl -> query_first tbl (username u) = Some u.
Proof.
  unfold query_first. induction tbl as [|v tbl IH]; simpl; [done|].
  intros Hnd Hin. apply list.NoDup_cons in Hnd as [Hv Hnd].
  case_bool_decide as Heq.
  - destruct Hin as [->|Hin]; [done|].
    exfalso. apply Hv. rewrite Heq. auto with authcore.
  - destruct Hin as [->|Hin]; [done|]. by apply IH.
Qed.

(** A map that keeps the username commutes with the lookup. *)
Lemma query_first_map (f : User -> User) tbl name :
  (forall u, In u tbl -> username (f u) = username u) ->
  query_first (map f tbl) name = f <$> query_first tbl name.
Proof.
  intros Hf. unfold query_first. induction tbl as [|u tbl IH]; simpl; [done|].
  rewrite Hf by (left; done). case_bool_decide; [done|].
  apply IH. intros v Hv. apply Hf. by right.
Qed.

Lemma query_first_app tbl v name :
  query_first (tbl ++ [v]) name =
    match query_first tbl name with
    | Some u => Some u
    | None => if bool_decide (username v = name) then Some v else None
    end.
Proof. unfold query_first. rewrite find_app. simpl. by case_bool_decide. Qed.

(** ** The unit of work *)

Lemma apply_columns_keys u cols :
  id (apply_columns u cols) = id u /\ username (apply_columns u cols) = username u.
Proof.
  unfold apply_columns. revert u.
  induction cols as [|c cols IH]; intros u; simpl; [done|].
  destruct (IH (apply_column u c)) as [-> ->]. by destruct c.
Qed.

Lemma apply_columns_app u cols1 cols2 :
  apply_columns u (cols1 ++ cols2) = apply_columns (apply_columns u cols1) cols2.
Proof. apply fold_left_app. Qed.

(** Round trip of the unit of work: the [UPDATE] built from the changed
    attributes, applied to the loaded row, gives the modified object. *)
Lemma apply_dirty_columns old new :
  id new = id old -> username new = username old ->
  apply_columns old (dirty_columns old new) = new.
Proof.
  intros Hid Hname. unfold dirty_columns. rewrite !apply_columns_app.
  destruct old as [i n h f l], new as [i' n' h' f' l']; simpl in *. subst.
  repeat case_bool_decide; subst; done.
Qed.

(** Under unique ids, the row of [old]'s id is [old] itself. *)
Lemma map_update_id_only tbl old (f : User -> User) :
  NoDup (map id tbl) -> In old tbl ->
  map (fun u => if bool_decide (id u = id old) then f u else u) tbl =
  map (fun u => if bool_decide (id u = id old) then f old else u) tbl.
Proof.
  intros Hnd Hin. apply map_ext_in. intros u Hu.
  case_bool_decide as Heq; [|done].
  by rewrite (NoDup_map_in_eq id tbl u old Hnd Hu Hin Heq).
Qed.

Lemma flush_update_apply old new tbl :
  NoDup (map id tbl) -> In old tbl ->
  id new = id old -> username new = username old ->
  commit tbl (flush_update old new) = Some (replace_user tbl old new).
Proof.
  intros Hnd Hin Hid Hname. pose proof (apply_dirty_columns old new Hid Hname) as Happ.
  unfold flush_update. destruct (dirty_columns old new) as [|c cols] eqn:Hd.
  - simpl in Happ. subst new. simpl. f_equal. unfold replace_user.
    rewrite <-(map_id tbl) at 1. symmetry. apply map_ext_in. intros u Hu.
    case_bool_decide as Heq; [|done].
    by rewrite (NoDup_map_in_eq id tbl u old Hnd Hu Hin Heq).
  - simpl. unfold update_row. rewrite bool_decide_true by auto with authcore.
    f_equal. unfold replace_user. rewrite (map_update_id_only tbl old (fun u => apply_columns u (c :: cols)) Hnd Hin).
    by rewrite Happ.
Qed.

(** ** Commit preserves the table invariant *)

Lemma apply_columns_ok u cols :
  row_ok u -> Forall column_ok cols -> row_ok (apply_columns u cols).
Proof.
  unfold apply_columns. revert u.
  induction cols as [|c cols IH]; intros u Hu Hc; simpl; [done|].
  inversion Hc as [|? ? Hc1 Hcs]; subst. apply IH; [|done].
  destruct c as [d|[m|]|t]; simpl in *; by try split; try apply Hu.
Qed.

Lemma map_keys_preserved (f : User -> User) tbl :
  (forall u, id (f u) = id u /\ username (f u) = username u) ->
  map id (map f tbl) = map id tbl /\ map username (map f tbl) = map username tbl.
Proof.
  intros Hf. rewrite !map_map. split; apply map_ext; intros u; apply Hf.
Qed.

Lemma update_row_wf uid cols tbl tbl' :
  table_wf tbl -> Forall column_ok cols -> update_row uid cols tbl = Some tbl' -> table_wf tbl'.
Proof.
  unfold update_row. intros (Hn & Hi & Hrows) Hc Hup.
  case_bool_decide; simplify_eq.
  set (f := fun u => if bool_decide (id u = uid) then apply_columns u cols else u).
  destruct (map_keys_preserved f tbl) as [Hi' Hn'].
  { intros u. unfold f. case_bool_decide; [apply apply_columns_keys|done]. }
  unfold table_wf. rewrite Hi', Hn'. split_and!; [done|done|].
  apply Forall_map. refine (Forall_impl _ _ Hrows). intros u Hu. unfold f.
  case_bool_decide; [by apply apply_columns_ok|done].
Qed.

Lemma new_rowid_gt tbl : Forall (fun u => id u < new_rowid tbl) tbl /\ 0 < new_rowid tbl.
Proof.
  unfold new_rowid. split; [|induction tbl; simpl; lia].
  apply Forall_forall. intros u Hu.
  assert (id u <= foldr Z.max 0 (map id tbl)); [|lia].
  induction tbl as [|v tbl IH]; simpl in *; [done|].
  destruct Hu as [->|Hu]; [lia|]. specialize (IH Hu). lia.
Qed.

Lemma insert_row_wf name h tbl tbl' :
  table_wf tbl -> insert_row name h tbl = Some tbl' -> table_wf tbl'.
Proof.
  unfold insert_row. intros (Hn & Hi & Hrows) Hins.
  case_bool_decide as Hfresh; simplify_eq.
  destruct (new_rowid_gt tbl) as [Hlt Hpos].
  unfold table_wf. rewrite !map_app. simpl. split_and!.
  - apply list.NoDup_app. split_and!; [done| |by apply NoDup_singleton].
    intros x Hx ->%list_elem_of_singleton. done.
  - apply list.NoDup_app. split_and!; [done| |by apply NoDup_singleton].
    intros x Hx ->%list_elem_of_singleton.
    apply list_elem_of_In, in_map_iff in Hx as [u [Hu Hin]].
    rewrite Forall_forall in Hlt. specialize (Hlt u Hin). lia.
  - apply Forall_app. split; [done|]. apply Forall_singleton.
    split; [done|]. simpl. lia.
Qed.

Theorem commit_wf tbl fl tbl' :
  table_wf tbl -> flush_ok fl -> commit tbl fl = Some tbl' -> table_wf tbl'.
Proof.
  intros Hwf Hfl. destruct fl as [[name h|uid cols]|]; simpl in *.
  - by apply insert_row_wf.
  - by apply update_row_wf.
  - by intros [= <-].
Qed.

Lemma flush_update_ok old new :
  match failed_login_attempts new with Some n => 0 <= n | None => False end ->
  flush_ok (flush_update old new).
Proof.
  intros Hn. assert (Forall column_ok (dirty_columns old new)) as Hok.
  { unfold dirty_columns. repeat apply Forall_app_2; repeat case_bool_decide; repeat constructor.
    by destruct (failed_login_attempts new). }
  unfold flush_update. by destruct (dirty_columns old new).
Qed.

Lemma row_of_wf tbl name u :
  table_wf tbl -> query_first tbl name = Some u -> row_ok u.
Proof.
  intros (_ & _ & Hrows) [Hin _]%query_first_Some.
  rewrite Forall_forall in Hrows. by apply Hrows.
Qed.

Lemma replace_user_keys tbl old new :
  NoDup (map id tbl) -> In old tbl -> id new = id old -> username new = username old ->
  map id (replace_user tbl old new) = map id tbl /\
  map username (replace_user tbl old new) = map username tbl.
Proof.
  intros Hnd Hin Hi Hn. unfold replace_user. rewrite !map_map.
  split; apply map_ext_in; intros u Hu; case_bool_decide as Hid; try done;
    rewrite (NoDup_map_in_eq id tbl u old Hnd Hu Hin Hid); congruence.
Qed.

(** Lookup after a replacement: the replaced row under its name, the
    others unchanged. *)
Lemma query_first_replace tbl old new name :
  table_wf tbl -> In old tbl -> id new = id old -> username new = username old ->
  query_first (replace_user tbl old new) name =
    if bool_decide (name = username old) then Some new else query_first tbl name.
Proof.
  intros (Hn & Hi & _) Hin Hid Hname. unfold replace_user.
  rewrite query_first_map; last first.
  { intros u Hu. case_bool_decide as Hid'; [|done].
    by rewrite (NoDup_map_in_eq id tbl u old Hi Hu Hin Hid'). }
  case_bool_decide as Heq.
  - subst name. rewrite query_first_unique by done. simpl. by rewrite bool_decide_true.
  - destruct (query_first tbl name) as [u|] eqn:Hq; simpl; [|done].
    apply query_first_Some in Hq as [Hu <-].
    case_bool_decide as Hid'; [|done].
    rewrite (NoDup_map_in_eq id tbl u old Hi Hu Hin Hid') in Heq. done.
Qed.

(** The changed attributes, applied to a row that already has them, change
    nothing. *)
Lemma apply_dirty_columns_new old new : apply_columns new (dirty_columns old new) = new.
Proof.
  unfold dirty_columns. rewrite !apply_columns_app.
  destruct new as [i n h f l]; simpl. repeat case_bool_decide; done.
Qed.

(** A second session that loaded the same row and made the same change
    commits the same [UPDATE] on the table the first one left: the table
    stays as the first commit left it. *)
Lemma commit_flush_update_again tbl old new :
  table_wf tbl -> In old tbl -> id new = id old -> username new = username old ->
  commit (replace_user tbl old new) (flush_update old new) = Some (replace_user tbl old new).
Proof.
  intros (Hn & Hi & _) Hin Hid Hname. unfold flush_update.
  pose proof (apply_dirty_columns_new old new) as Hnew.
  destruct (dirty_columns old new) as [|c cols]; [done|]. simpl. unfold update_row.
  destruct (replace_user_keys tbl old new Hi Hin Hid Hname) as [Hi' _].
  rewrite Hi', bool_decide_true by auto with authcore. f_equal.
  unfold replace_user. rewrite map_map. apply map_ext_in. intros u Hu.
  case_bool_decide as Hu_old; case_bool_decide; congruence.
Qed.

(** ** Where a lockout value can come from *)

(** The lockout values a unit of work writes: [NULL] for an insert, the
    [lockout_until] clauses of an update. *)
Definition flush_writes_lockout (fl : option Flush) (t : option datetime) : Prop :=
  match fl with
  | Some (FInsert _ _) => t = None
  | Some (FUpdate _ cols) => ColLockout t ∈ cols
  | None => False
  end.

(** A unit of work computed from a row that another session has since
    replaced by [mid] is applied to [mid]: the columns it changed are
    overwritten, the others keep [mid]'s values. *)
Lemma commit_flush_update_stale tbl old mid new :
  table_wf tbl -> In old tbl -> id mid = id old -> username mid = username old ->
  commit (replace_user tbl old mid) (flush_update old new) =
    Some (replace_user tbl old (apply_columns mid (dirty_columns old new))).
Proof.
  intros (Hn & Hi & _) Hin Hid Hname. unfold flush_update.
  destruct (dirty_columns old new) as [|c cols]; [done|]. simpl. unfold update_row.
  destruct (replace_user_keys tbl old mid Hi Hin Hid Hname) as [Hi' _].
  rewrite Hi', bool_decide_true by auto with authcore. f_equal.
  unfold replace_user. rewrite map_map. apply map_ext_in. intros u Hu.
  case_bool_decide as Hu_old; case_bool_decide; try congruence; reflexivity.
Qed.

Lemma apply_columns_lockout u cols :
  lockout_until (apply_columns u cols) = lockout_until u \/
  ColLockout (lockout_until (apply_columns u cols)) ∈ cols.
Proof.
  unfold apply_columns. revert u. induction cols as [|c cols IH]; intros u; simpl; [by left|].
  destruct (IH (apply_column u c)) as [-> | Hin]; [|right; by apply elem_of_cons; right].
  destruct c; simpl; try (left; done). right. by apply elem_of_cons; left.
Qed.

Lemma dirty_lockout old new t :
  ColLockout t ∈ dirty_columns old new -> t = lockout_until new /\ lockout_until old <> lockout_until new.
Proof.
  unfold dirty_columns. rewrite !elem_of_app.
  repeat case_bool_decide; rewrite ?list_elem_of_singleton, ?elem_of_nil; naive_solver.
Qed.

(** After a commit, a row's lockout is the one it had or one the unit of
    work wrote. *)
Lemma commit_lockout tbl fl tbl' name u' :
  commit tbl fl = Some tbl' -> query_first tbl' name = Some u' ->
  (exists u, query_first tbl name = Some u /\ lockout_until u = lockout_until u') \/
  flush_writes_lockout fl (lockout_until u').
Proof.
  intros Hc Hq. destruct fl as [[n h|uid cols]|]; simpl in Hc.
  - unfold insert_row in Hc. case_bool_decide; simplify_eq.
    rewrite query_first_app in Hq. destruct (query_first tbl name) eqn:Hq0; simplify_eq; [by left; eauto|].
    case_bool_decide; simplify_eq. by right.
  - unfold update_row in Hc. case_bool_decide; simplify_eq.
    rewrite query_first_map in Hq by (intros v _; case_bool_decide; [apply apply_columns_keys|done]).
    destruct (query_first tbl name) as [u|] eqn:Hq0; simplify_eq. simpl in Hq. simplify_eq.
    case_bool_decide; [|by left; eauto].
    destruct (apply_columns_lockout u cols) as [Heq|Hin]; [left; eauto|by right].
  - simplify_eq. left. eauto.
Qed.

(** ** Counter growth

    [max_counter] is the largest failed-login counter of a table, a
    [NULL] counter read as [0].  A commit whose unit of work writes no
    counter above [m] leaves every counter at most [m]. *)
Definition max_counter (tbl : Table) : Z :=
  foldr Z.max 0 (map (fun u => default 0 (failed_login_attempts u)) tbl).

Definition flush_counters_le (m : Z) (fl : option Flush) : Prop :=
  match fl with
  | Some (FUpdate _ cols) => forall n, ColFailed n ∈ cols -> default 0 n <= m
  | _ => True
  end.

Lemma max_counter_ge tbl u : In u tbl -> default 0 (failed_login_attempts u) <= max_counter tbl.
Proof. unfold max_counter. induction tbl as [|v tbl IH]; simpl; [done|]. intros [->|Hin]; [lia|]. specialize (IH Hin). lia. Qed.

Lemma max_counter_nonneg tbl : 0 <= max_counter tbl.
Proof. unfold max_counter. induction tbl; simpl; lia. Qed.

Lemma max_counter_le tbl m :
  0 <= m -> (forall u, In u tbl -> default 0 (failed_login_attempts u) <= m) -> max_counter tbl <= m.
Proof.
  intros Hm. unfold max_counter. induction tbl as [|v tbl IH]; intros Hall; simpl; [done|].
  pose proof (Hall v (or_introl eq_refl)). pose proof (IH (fun u Hu => Hall u (or_intror Hu))). lia.
Qed.

Lemma apply_columns_failed u cols :
  failed_login_attempts (apply_columns u cols) = failed_login_attempts u \/
  ColFailed (failed_login_attempts (apply_columns u cols)) ∈ cols.
Proof.
  unfold apply_columns. revert u. induction cols as [|c cols IH]; intros u; simpl; [by left|].
  destruct (IH (apply_column u c)) as [-> | Hin]; [|right; by apply elem_of_cons; right].
  destruct c; simpl; try (left; done). right. by apply elem_of_cons; left.
Qed.

Lemma dirty_failed old new n :
  ColFailed n ∈ dirty_columns old new -> n = failed_login_attempts new.
Proof.
  unfold dirty_columns. rewrite !elem_of_app.
  repeat case_bool_decide; rewrite ?list_elem_of_singleton, ?elem_of_nil; naive_solver.
Qed.

Lemma flush_update_counters m old new :
  default 0 (failed_login_attempts new) <= m -> flush_counters_le m (flush_update old new).
Proof.
  intros Hle. unfold flush_update. destruct (dirty_columns old new) as [|c cols] eqn:Hd; [done|].
  simpl. rewrite <-Hd. by intros n ->%dirty_failed.
Qed.

Lemma commit_counter tbl fl tbl' m :
  commit tbl fl = Some tbl' -> flush_counters_le m fl -> max_counter tbl <= m -> max_counter tbl' <= m.
Proof.
  intros Hc Hfl Hmax. pose proof (max_counter_nonneg tbl) as H0.
  apply max_counter_le; [lia|]. intros u' Hin.
  destruct fl as [[n h|uid cols]|]; simpl in Hc.
  - unfold insert_row in Hc. case_bool_decide; simplify_eq.
    apply in_app_or in Hin as [Hin|[<-|[]]]; [pose proof (max_counter_ge tbl u' Hin)|simpl]; lia.
  - unfold update_row in Hc. case_bool_decide; simplify_eq.
    apply in_map_iff in Hin as (u & <- & Hin). pose proof (max_counter_ge tbl u Hin).
    case_bool_decide; [|lia].
    destruct (apply_columns_failed u cols) as [->|Hcol]; [lia|by apply Hfl].
  - simplify_eq. pose proof (max_counter_ge tbl' u' Hin). lia.
Qed.

(** ** Row properties kept by a commit

    A property of every row survives a commit that writes rows having it:
    the loaded row replaced by its modified copy, or the new row. *)
Lemma commit_update_Forall (P : User -> Prop) tbl old new tbl' :
  NoDup (map id tbl) -> In old tbl -> id new = id old -> username new = username old ->
  commit tbl (flush_update old new) = Some tbl' -> Forall P tbl -> P new -> Forall P tbl'.
Proof.
  intros Hnd Hin Hid Hname Hc Hall Hnew. rewrite flush_update_apply in Hc by done.
  injection Hc as <-. unfold replace_user. apply Forall_map.
  refine (Forall_impl _ _ Hall). intros u Hu. by case_bool_decide.
Qed.

Lemma commit_insert_Forall (P : User -> Prop) tbl name h tbl' :
  commit tbl (Some (FInsert name h)) = Some tbl' -> Forall P tbl ->
  P (mkUser (new_rowid tbl) name h (Some 0) None) -> Forall P tbl'.
Proof.
  simpl. unfold insert_row. intros Hc Hall Hnew. case_bool_decide; simplify_eq.
  apply Forall_app; split; [done|by constructor].
Qed.

(** One step of a session on the row of [name]: the table stays well formed
    and the row is replaced in place. *)
Lemma replace_step tbl name u u' :
  table_wf tbl -> query_first tbl name = Some u ->
  id u' = id u -> username u' = username u -> row_ok u' ->
  table_wf (replace_user tbl u u') /\ query_first (replace_user tbl u u') name = Some u'.
Proof.
  intros Hwf Hq Hid Hname Hok. pose proof (query_first_Some _ _ _ Hq) as [Hin <-].
  destruct Hwf as (Hn & Hi & Hrows) eqn:Hwf'.
  destruct (replace_user_keys tbl u u' Hi Hin Hid Hname) as [Hi' Hn'].
  split.
  - unfold table_wf. rewrite Hi', Hn'. split_and!; [done|done|].
    unfold replace_user. apply Forall_map. refine (Forall_impl _ _ Hrows).
    intros v Hv. by case_bool_decide.
  - rewrite query_first_replace by done. by rewrite bool_decide_true.
Qed.

End Store.

Arguments Table {_}.
Arguments Column {_}.
Arguments Flush {_}.

#[local] Existing Instance ideal_bcrypt.
