(* ===== verification/Api.v ===== *)
(** * Api: the handlers of [create_app] in [src/app.py]

    Each JSON handler reads the request body, queries the [users] table,
    changes the loaded [User] object and commits.  [api_*_plan] is the part
    of a handler that runs on the rows it reads: it returns the response and
    the unit of work its [db.session.commit()] flushes (none when the handler
    returns before committing).  [run_handler] performs the commit: when
    the database rejects the flush, the exception escapes the view and Flask
    answers [500], with the session rolled back, so the table is unchanged.
    [app_handle] is the URL map of [create_app]: the five page routes
    render templates, the API routes accept [POST] ([GET] for
    [/api/users]); Flask answers [OPTIONS] on every rule and runs the
    [GET] view for [HEAD]; another method gives [405], another path [404].
    [response_ok] is the shape every answer has.
    Request-dependent inputs are explicit: [now] is [datetime.utcnow()] and
    [s] the salt bcrypt draws for a new hash. *)
From S2P Require Import Prelude Config Hasher User Store.
Import Config.

(** ** Responses *)

(** The JSON values [jsonify] produces; [JDateTime t] is [t.isoformat()]. *)
Inductive JsonValue :=
| JNull
| JBool (b : bool)
| JInt (z : Z)
| JStr (s : string)
| JDateTime (t : datetime)
| JArray (l : list JsonValue)
| JObject (kvs : list (string * JsonValue)).

Inductive Body :=
| BJson (j : JsonValue)
| BTemplate (name : string)
| BEmpty
| BAllow (methods : list string)
| BInternalServerError
| BNotFound
| BMethodNotAllowed (allowed : list string).

Record Response := mkResponse { status : Z; body : Body }.

(** [jsonify({'error': msg}), code] and [jsonify({'message': msg}), code]. *)
Definition json_error (code : Z) (msg : string) : Response :=
  mkResponse code (BJson (JObject [("error", JStr msg)])).
Definition json_message (code : Z) (msg : string) : Response :=
  mkResponse code (BJson (JObject [("message", JStr msg)])).

Definition internal_server_error : Response := mkResponse 500 BInternalServerError.

(** [api_login], lines 91-94: the account is locked. *)
Definition locked_response (t : datetime) : Response :=
  mkResponse 403 (BJson (JObject [("error", JStr "Account locked. Try again later.");
                                  ("locked_until", JDateTime t)])).

Section Handlers.
Context `{PasswordHasher}.
Context (cfg : Config).

(** [api_register], lines 60-77. *)
Definition api_register_plan (s : Salt) (data : PyDict) (tbl : Table) : Response * option Flush :=
  match truthy_value (dict_get data "username"), truthy_value (dict_get data "password") with
  | Some username, Some password =>
      match query_first tbl username with
      | Some _ => (json_error 409 "Username already exists", None)
      | None =>
          (json_message 201 ("User " ++ username ++ " registered successfully"),
           Some (new_user s username password))
      end
  | _, _ => (json_error 400 "Username and password are required", None)
  end.

(** [api_login], lines 80-114.  The [None] branches are the exceptions
    the code would raise: [None.isoformat()] and [None += 1]. *)
Definition api_login_plan (now : datetime) (data : PyDict) (tbl : Table) : Response * option Flush :=
  match truthy_value (dict_get data "username"), truthy_value (dict_get data "password") with
  | Some username, Some password =>
      match query_first tbl username with
      | Some user =>
          if is_locked user now then
            match lockout_until user with
            | Some t => (locked_response t, None)
            | None => (internal_server_error, None)
            end
          else if check_password user password then
            let user' := set_lockout_until (set_failed_login_attempts user (Some 0)) None in
            (json_message 200 "Login successful", flush_update user user')
          else
            match failed_login_attempts user with
            | Some n =>
                let user1 := set_failed_login_attempts user (Some (n + 1)) in
                if n + 1 >=? LOCKOUT_ATTEMPTS cfg then
                  let user2 := set_lockout_until user1 (Some (now + lockout_duration cfg)) in
                  (json_error 403 "Account locked due to too many failed attempts",
                   flush_update user user2)
                else (json_error 401 "Invalid credentials", flush_update user user1)
            | None => (internal_server_error, None)
            end
      | None => (json_error 401 "Invalid credentials", None)
      end
  | _, _ => (json_error 400 "Username and password are required", None)
  end.

(** [api_reset_password], lines 131-153. *)
Definition api_reset_password_plan (s : Salt) (now : datetime) (data : PyDict) (tbl : Table)
    : Response * option Flush :=
  match truthy_value (dict_get data "username"), truthy_value (dict_get data "old_password"),
        truthy_value (dict_get data "new_password") with
  | Some username, Some old_password, Some new_password =>
      match query_first tbl username with
      | Some user =>
          if negb (check_password user old_password) then
            (json_error 401 "Invalid username or old password", None)
          else if is_locked user now then
            (json_error 403 "Account is locked, cannot reset password right now", None)
          else
            let user' := set_lockout_until
                           (set_failed_login_attempts (set_password s user new_password) (Some 0)) None in
            (json_message 200 "Password reset successful", flush_update user user')
      | None => (json_error 401 "Invalid username or old password", None)
      end
  | _, _, _ => (json_error 400 "Username, old_password, and new_password are required", None)
  end.

(** [api_get_users], lines 117-128: one object per row, in table order. *)
Definition user_json (now : datetime) (u : User) : JsonValue :=
  JObject [("id", JInt (id u)); ("username", JStr (username u));
           ("failed_attempts", match failed_login_attempts u with Some n => JInt n | None => JNull end);
           ("locked_out", JBool (is_locked u now))].

Definition api_get_users (now : datetime) (tbl : Table) : Response :=
  mkResponse 200 (BJson (JArray (map (user_json now) tbl))).

(** [db.session.commit()] at the end of a handler. *)
Definition run_handler (plan : Table -> Response * option Flush) (tbl : Table) : Response * Table :=
  let '(resp, fl) := plan tbl in
  match commit tbl fl with
  | Some tbl' => (resp, tbl')
  | None => (internal_server_error, tbl)
  end.

Definition api_register (s : Salt) (data : PyDict) : Table -> Response * Table :=
  run_handler (api_register_plan s data).
Definition api_login (now : datetime) (data : PyDict) : Table -> Response * Table :=
  run_handler (api_login_plan now data).
Definition api_reset_password (s : Salt) (now : datetime) (data : PyDict) : Table -> Response * Table :=
  run_handler (api_reset_password_plan s now data).

(** ** The URL map *)
(** A request with a JSON body: [json] is what [request.get_json()]
    returns, [Some d] for a JSON object and [None] for any other JSON value
    ([null], an array, a string or a number), on which [data.get] raises
    [AttributeError]. *)
Record HttpRequest := mkHttpRequest { method : string; path : string; json : option PyDict }.

Inductive Endpoint :=
| Index | LoginPage | RegisterPage | ResetPage | UsersPage
| ApiRegister | ApiLogin | ApiGetUsers | ApiResetPassword.

(** The [@app.route] declarations: rule, endpoint, allowed method. *)
Definition url_map : list (string * (Endpoint * string)) := [
  ("/", (Index, "GET")); ("/login", (LoginPage, "GET"));
  ("/register", (RegisterPage, "GET")); ("/reset", (ResetPage, "GET"));
  ("/users", (UsersPage, "GET"));
  ("/api/register", (ApiRegister, "POST")); ("/api/login", (ApiLogin, "POST"));
  ("/api/users", (ApiGetUsers, "GET")); ("/api/reset", (ApiResetPassword, "POST"))
]%string.

Definition dispatch (s : Salt) (now : datetime) (e : Endpoint) (body : option PyDict) (tbl : Table)
    : Response * Table :=
  match e, body with
  | Index, _ => (mkResponse 200 (BTemplate "index.html"), tbl)
  | LoginPage, _ => (mkResponse 200 (BTemplate "login.html"), tbl)
  | RegisterPage, _ => (mkResponse 200 (BTemplate "register.html"), tbl)
  | ResetPage, _ => (mkResponse 200 (BTemplate "reset.html"), tbl)
  | UsersPage, _ => (mkResponse 200 (BTemplate "users.html"), tbl)
  | ApiGetUsers, _ => (api_get_users now tbl, tbl)
  | ApiRegister, Some data => api_register s data tbl
  | ApiLogin, Some data => api_login now data tbl
  | ApiResetPassword, Some data => api_reset_password s now data tbl
  | (ApiRegister | ApiLogin | ApiResetPassword), None => (internal_server_error, tbl)
  end.

(** The methods a rule answers: Werkzeug adds [HEAD] to a rule that
    allows [GET], and Flask adds [OPTIONS] to every rule
    ([provide_automatic_options]). *)
Definition rule_methods (m : string) : list string :=
  if bool_decide (m = "GET") then ["GET"; "HEAD"; "OPTIONS"] else [m; "OPTIONS"].

(** Routing: an unknown path is [404]; [OPTIONS] is answered by Flask's
    default options response (an empty body with the [Allow] header); a
    [HEAD] request runs the [GET] view and the server sends its headers
    without the body; another method is [405] with the [Allow] header. *)
Definition app_handle (s : Salt) (now : datetime) (req : HttpRequest) (tbl : Table) : Response * Table :=
  match find (fun r => bool_decide (r.1 = path req)) url_map with
  | None => (mkResponse 404 BNotFound, tbl)
  | Some (_, (e, m)) =>
      if bool_decide (method req = "OPTIONS") then (mkResponse 200 (BAllow (rule_methods m)), tbl)
      else if bool_decide (method req = m) then dispatch s now e (json req) tbl
      else if bool_decide (method req = "HEAD" /\ m = "GET") then
        let '(r, tbl') := dispatch s now e (json req) tbl in (mkResponse (status r) BEmpty, tbl')
      else (mkResponse 405 (BMethodNotAllowed (rule_methods m)), tbl)
  end.
End Handlers.

(** ** Behaviour of the handlers, branch by branch *)
Section HandlerLemmas.
Context `{PasswordHasher} (cfg : Config).
Implicit Types (tbl : Table) (data : PyDict) (u : User).

Lemma run_handler_no_flush plan tbl r :
  plan tbl = (r, None) -> run_handler plan tbl = (r, tbl).
Proof. unfold run_handler. by intros ->. Qed.

Lemma run_handler_update plan tbl r old new :
  plan tbl = (r, flush_update old new) ->
  table_wf tbl -> In old tbl -> id new = id old -> username new = username old ->
  run_handler plan tbl = (r, replace_user tbl old new).
Proof.
  intros Hp (Hn & Hi & _) Hin Hid Hname. unfold run_handler. rewrite Hp.
  by rewrite flush_update_apply.
Qed.

Lemma query_first_In tbl name u : query_first tbl name = Some u -> In u tbl.
Proof. by intros [? _]%query_first_Some. Qed.

(** The table a request leaves is the one it found, or the one its
    view's [dispatch] leaves. *)
Lemma app_handle_table s now req tbl :
  snd (app_handle cfg s now req tbl) = tbl \/
  exists e, snd (app_handle cfg s now req tbl) = snd (dispatch cfg s now e (json req) tbl).
Proof.
  unfold app_handle. destruct (find _ url_map) as [[? [e m]]|]; [|by left].
  repeat case_bool_decide; try (by left); right; exists e; try done.
  by destruct (dispatch _ _ _ _ _ _).
Qed.

(** The login request names an account. *)
Definition login_fields data name pw : Prop :=
  truthy_value (dict_get data "username") = Some name /\
  truthy_value (dict_get data "password") = Some pw.
End HandlerLemmas.

#[export] Hint Resolve query_first_In : authcore.

(** Reduce a handler to its plan: no flush, or the flush of one row. *)
Ltac handler_branch :=
  first [ apply run_handler_no_flush
        | eapply run_handler_update; [|done|by eauto with authcore|done|done] ].

Section LoginLemmas.
Context `{PasswordHasher} (cfg : Config).
Implicit Types (tbl : Table) (data : PyDict) (u : User).

(** What the view computes before its commit, branch by branch. *)
Lemma login_plan_unknown now data tbl name pw :
  login_fields data name pw -> query_first tbl name = None ->
  api_login_plan cfg now data tbl = (json_error 401 "Invalid credentials", None).
Proof. intros [Hu Hp] Hq. unfold api_login_plan. by rewrite Hu, Hp, Hq. Qed.

Lemma login_plan_locked now data tbl name pw u t :
  login_fields data name pw -> query_first tbl name = Some u ->
  lockout_until u = Some t -> now < t ->
  api_login_plan cfg now data tbl = (locked_response t, None).
Proof.
  intros [Hu Hp] Hq Hl Hlt. assert (is_locked u now = true) as Hlk by (apply is_locked_true; eauto).
  unfold api_login_plan. by rewrite Hu, Hp, Hq, Hlk, Hl.
Qed.

Lemma login_plan_success now data tbl name pw u :
  login_fields data name pw -> query_first tbl name = Some u ->
  is_locked u now = false -> check_password u pw = true ->
  api_login_plan cfg now data tbl =
    (json_message 200 "Login successful",
     flush_update u (set_lockout_until (set_failed_login_attempts u (Some 0)) None)).
Proof. intros [Hu Hp] Hq Hl Hc. unfold api_login_plan. by rewrite Hu, Hp, Hq, Hl, Hc. Qed.

Lemma login_plan_wrong now data tbl name pw u n :
  login_fields data name pw -> query_first tbl name = Some u ->
  is_locked u now = false -> check_password u pw = false ->
  failed_login_attempts u = Some n ->
  api_login_plan cfg now data tbl =
    if n + 1 >=? LOCKOUT_ATTEMPTS cfg then
      (json_error 403 "Account locked due to too many failed attempts",
       flush_update u (set_lockout_until (set_failed_login_attempts u (Some (n + 1)))
                                         (Some (now + lockout_duration cfg))))
    else
      (json_error 401 "Invalid credentials",
       flush_update u (set_failed_login_attempts u (Some (n + 1)))).
Proof. intros [Hu Hp] Hq Hl Hc Hn. unfold api_login_plan. by rewrite Hu, Hp, Hq, Hl, Hc, Hn. Qed.

(** [api_login] on an unknown username: [401], nothing written (spec §4.1,
    step 4). *)
Lemma api_login_unknown_user now data tbl name pw :
  login_fields data name pw -> query_first tbl name = None ->
  api_login cfg now data tbl = (json_error 401 "Invalid credentials", tbl).
Proof. intros. handler_branch. by eapply login_plan_unknown. Qed.

(** C2: [api_login] on a locked account: [403] with the unlock time, nothing
    written, whatever the password. *)
Theorem api_login_locked now data tbl name pw u t :
  login_fields data name pw -> query_first tbl name = Some u ->
  lockout_until u = Some t -> now < t ->
  api_login cfg now data tbl = (locked_response t, tbl).
Proof. intros. handler_branch. by eapply login_plan_locked. Qed.

(** C3: [api_login] with the right password on an unlocked account: [200],
    counter reset to [0], lockout cleared. *)
Theorem api_login_success now data tbl name pw u :
  table_wf tbl -> login_fields data name pw -> query_first tbl name = Some u ->
  is_locked u now = false -> check_password u pw = true ->
  api_login cfg now data tbl =
    (json_message 200 "Login successful",
     replace_user tbl u (set_lockout_until (set_failed_login_attempts u (Some 0)) None)).
Proof. intros. handler_branch. by eapply login_plan_success. Qed.

(** C1: [api_login] with a wrong password on an unlocked account: the counter
    goes from [n] to [n + 1]; when [n + 1] reaches [LOCKOUT_ATTEMPTS] the
    account is locked until [now + LOCKOUT_DURATION] and the answer is
    [403], otherwise [401]. *)
Theorem api_login_wrong_password now data tbl name pw u n :
  table_wf tbl -> login_fields data name pw -> query_first tbl name = Some u ->
  is_locked u now = false -> check_password u pw = false ->
  failed_login_attempts u = Some n ->
  api_login cfg now data tbl =
    if n + 1 >=? LOCKOUT_ATTEMPTS cfg then
      (json_error 403 "Account locked due to too many failed attempts",
       replace_user tbl u (set_lockout_until (set_failed_login_attempts u (Some (n + 1)))
                                             (Some (now + lockout_duration cfg))))
    else
      (json_error 401 "Invalid credentials",
       replace_user tbl u (set_failed_login_attempts u (Some (n + 1)))).
Proof.
  intros Hwf Hf Hq Hl Hc Hn. pose proof (login_plan_wrong now data tbl name pw u n Hf Hq Hl Hc Hn) as Hp.
  destruct (n + 1 >=? LOCKOUT_ATTEMPTS cfg); by handler_branch.
Qed.

(** C31: A request without a username or password: [400], nothing written. *)
Theorem api_login_missing_field now data tbl :
  (truthy_value (dict_get data "username") = None \/ truthy_value (dict_get data "password") = None) ->
  api_login cfg now data tbl = (json_error 400 "Username and password are required", tbl).
Proof.
  intros Hmiss. handler_branch. unfold api_login_plan.
  destruct Hmiss as [-> | ->]; [done|]. by destruct (truthy_value _).
Qed.
(** The two wrong-password branches of [api_login], each under its guard. *)
Lemma wrong_step_count now data tbl name pw u n :
  table_wf tbl -> login_fields data name pw -> query_first tbl name = Some u ->
  is_locked u now = false -> check_password u pw = false -> failed_login_attempts u = Some n ->
  n + 1 < LOCKOUT_ATTEMPTS cfg ->
  api_login cfg now data tbl =
    (json_error 401 "Invalid credentials", replace_user tbl u (set_failed_login_attempts u (Some (n + 1)))).
Proof.
  intros Hwf [Hu Hp] Hq Hl Hc Hn Hlt. handler_branch. unfold api_login_plan.
  rewrite Hu, Hp, Hq, Hl, Hc, Hn. by autorewrite with authcore_rw.
Qed.

Lemma wrong_step_lock now data tbl name pw u n :
  table_wf tbl -> login_fields data name pw -> query_first tbl name = Some u ->
  is_locked u now = false -> check_password u pw = false -> failed_login_attempts u = Some n ->
  LOCKOUT_ATTEMPTS cfg <= n + 1 ->
  api_login cfg now data tbl =
    (json_error 403 "Account locked due to too many failed attempts",
     replace_user tbl u (set_lockout_until (set_failed_login_attempts u (Some (n + 1)))
                                           (Some (now + lockout_duration cfg)))).
Proof.
  intros Hwf [Hu Hp] Hq Hl Hc Hn Hge. handler_branch. unfold api_login_plan.
  rewrite Hu, Hp, Hq, Hl, Hc, Hn. by autorewrite with authcore_rw.
Qed.

Lemma expired_unlocked u t now : lockout_until u = Some t -> t <= now -> is_locked u now = false.
Proof. intros Hl Hle. apply is_locked_false. intros t' Ht'. rewrite Hl in Ht'. by simplify_eq. Qed.

(** C14: After the lockout has expired, the right password is accepted with no
    unlock action: [200], counter [0], lockout cleared (spec §8). *)
Theorem login_after_expiry now data tbl name pw u t :
  table_wf tbl -> login_fields data name pw -> query_first tbl name = Some u ->
  lockout_until u = Some t -> t <= now -> check_password u pw = true ->
  api_login cfg now data tbl =
    (json_message 200 "Login successful",
     replace_user tbl u (set_lockout_until (set_failed_login_attempts u (Some 0)) None)).
Proof.
  intros Hwf Hf Hq Hl Hle Hc. handler_branch.
  by eapply login_plan_success, Hc; [|done|eapply expired_unlocked].
Qed.

(** C15: The counter survives the expiry of a lockout: once an account has been
    locked (counter at least [LOCKOUT_ATTEMPTS - 1]), a single wrong
    password after the expiry locks it again for a full window. *)
Theorem relock_after_expiry now data tbl name pw u t n :
  table_wf tbl -> login_fields data name pw -> query_first tbl name = Some u ->
  lockout_until u = Some t -> t <= now -> check_password u pw = false ->
  failed_login_attempts u = Some n -> LOCKOUT_ATTEMPTS cfg <= n + 1 ->
  api_login cfg now data tbl =
    (json_error 403 "Account locked due to too many failed attempts",
     replace_user tbl u (set_lockout_until (set_failed_login_attempts u (Some (n + 1)))
                                           (Some (now + lockout_duration cfg)))).
Proof.
  intros Hwf Hf Hq Hl Hle Hc Hn Hge.
  by eapply wrong_step_lock; [| | |eapply expired_unlocked| | |].
Qed.
End LoginLemmas.

Section RegisterResetLemmas.
Context `{PasswordHasher}.
Implicit Types (tbl : Table) (data : PyDict) (u : User).

Definition register_fields data name pw : Prop :=
  truthy_value (dict_get data "username") = Some name /\
  truthy_value (dict_get data "password") = Some pw.

Definition reset_fields data name old_pw new_pw : Prop :=
  truthy_value (dict_get data "username") = Some name /\
  truthy_value (dict_get data "old_password") = Some old_pw /\
  truthy_value (dict_get data "new_password") = Some new_pw.

Lemma register_plan_new s data tbl name pw :
  register_fields data name pw -> query_first tbl name = None ->
  api_register_plan s data tbl =
    (json_message 201 ("User " ++ name ++ " registered successfully"),
     Some (FInsert name (generate_password_hash s pw))).
Proof. intros [Hu Hp] Hq. unfold api_register_plan. by rewrite Hu, Hp, Hq. Qed.

(** C27: [api_register] of a new name: [201] and one new row at the end, with
    a fresh id, counter [0], no lockout and the hash of the password. *)
Theorem api_register_new s data tbl name pw :
  register_fields data name pw -> query_first tbl name = None ->
  api_register s data tbl =
    (json_message 201 ("User " ++ name ++ " registered successfully"),
     tbl ++ [mkUser (new_rowid tbl) name (generate_password_hash s pw) (Some 0) None]).
Proof.
  intros [Hu Hp] Hq. unfold api_register, run_handler, api_register_plan.
  rewrite Hu, Hp, Hq. simpl. unfold insert_row.
  apply query_first_None in Hq. by rewrite bool_decide_false.
Qed.

Lemma register_plan_taken s data tbl name pw u :
  register_fields data name pw -> query_first tbl name = Some u ->
  api_register_plan s data tbl = (json_error 409 "Username already exists", None).
Proof. intros [Hu Hp] Hq. unfold api_register_plan. by rewrite Hu, Hp, Hq. Qed.

(** [api_register] of a taken name: [409], nothing written. *)
Lemma api_register_taken s data tbl name pw u :
  register_fields data name pw -> query_first tbl name = Some u ->
  api_register s data tbl = (json_error 409 "Username already exists", tbl).
Proof.
  intros Hf Hq. handler_branch. by eapply register_plan_taken.
Qed.

Lemma reset_plan_success s now data tbl name old_pw new_pw u :
  reset_fields data name old_pw new_pw -> query_first tbl name = Some u ->
  check_password u old_pw = true -> is_locked u now = false ->
  api_reset_password_plan s now data tbl =
    (json_message 200 "Password reset successful",
     flush_update u (set_lockout_until (set_failed_login_attempts (set_password s u new_pw) (Some 0)) None)).
Proof.
  intros (Hu & Ho & Hn) Hq Hc Hl. unfold api_reset_password_plan. by rewrite Hu, Ho, Hn, Hq, Hc, Hl.
Qed.

(** C28: [api_reset_password] with the right old password on an unlocked
    account: [200], new hash, counter [0], lockout cleared. *)
Theorem api_reset_password_success s now data tbl name old_pw new_pw u :
  table_wf tbl -> reset_fields data name old_pw new_pw -> query_first tbl name = Some u ->
  check_password u old_pw = true -> is_locked u now = false ->
  api_reset_password s now data tbl =
    (json_message 200 "Password reset successful",
     replace_user tbl u (set_lockout_until
                           (set_failed_login_attempts (set_password s u new_pw) (Some 0)) None)).
Proof.
  intros. handler_branch. by eapply reset_plan_success.
Qed.

Lemma reset_plan_rejected s now data tbl name old_pw new_pw :
  reset_fields data name old_pw new_pw ->
  (forall u, query_first tbl name = Some u -> check_password u old_pw = false) ->
  api_reset_password_plan s now data tbl = (json_error 401 "Invalid username or old password", None).
Proof.
  intros (Hu & Ho & Hn) Hbad. unfold api_reset_password_plan.
  rewrite Hu, Ho, Hn. destruct (query_first tbl name) as [u|]; [|done].
  by rewrite (Hbad u eq_refl).
Qed.

(** C30: [api_reset_password] with a wrong old password or an unknown name:
    [401], nothing written, locked or not. *)
Theorem api_reset_password_rejected s now data tbl name old_pw new_pw :
  reset_fields data name old_pw new_pw ->
  (forall u, query_first tbl name = Some u -> check_password u old_pw = false) ->
  api_reset_password s now data tbl = (json_error 401 "Invalid username or old password", tbl).
Proof.
  intros Hf Hbad. handler_branch. by eapply reset_plan_rejected.
Qed.

(** C29: [api_reset_password] on a locked account with the right old password:
    [403], nothing written. *)
Theorem api_reset_password_locked s now data tbl name old_pw new_pw u :
  reset_fields data name old_pw new_pw -> query_first tbl name = Some u ->
  check_password u old_pw = true -> is_locked u now = true ->
  api_reset_password s now data tbl =
    (json_error 403 "Account is locked, cannot reset password right now", tbl).
Proof.
  intros (Hu & Ho & Hn) Hq Hc Hl. handler_branch.
  unfold api_reset_password_plan. by rewrite Hu, Ho, Hn, Hq, Hc, Hl.
Qed.
End RegisterResetLemmas.

(** ** The table invariant is kept by every request *)
Section Invariant.
Context `{PasswordHasher} (cfg : Config).
Implicit Types (tbl : Table) (data : PyDict).

Lemma run_handler_wf plan tbl :
  table_wf tbl -> flush_ok (snd (plan tbl)) -> table_wf (snd (run_handler plan tbl)).
Proof.
  unfold run_handler. destruct (plan tbl) as [r fl]. simpl. intros Hwf Hfl.
  destruct (commit tbl fl) eqn:Hc; [|done]. by eapply commit_wf.
Qed.

Lemma api_login_plan_ok now data tbl :
  table_wf tbl -> flush_ok (snd (api_login_plan cfg now data tbl)).
Proof.
  intros Hwf. unfold api_login_plan.
  destruct (truthy_value (dict_get data "username")) as [name|],
    (truthy_value (dict_get data "password")) as [pw|]; try done.
  destruct (query_first tbl name) as [u|] eqn:Hq; [|done].
  destruct (row_of_wf _ _ _ Hwf Hq) as [_ Hn].
  destruct (failed_login_attempts u) as [n|] eqn:Hfa; [|done].
  repeat case_match; simpl; try done; apply flush_update_ok; simpl; rewrite ?Hfa; simpl; lia.
Qed.

Lemma api_reset_password_plan_ok s now data tbl :
  flush_ok (snd (api_reset_password_plan s now data tbl)).
Proof.
  unfold api_reset_password_plan.
  destruct (truthy_value (dict_get data "username")) as [name|],
    (truthy_value (dict_get data "old_password")),
    (truthy_value (dict_get data "new_password")); try done.
  destruct (query_first tbl name) as [u|]; [|done].
  repeat case_match; try done. by apply flush_update_ok.
Qed.

Lemma api_register_plan_ok s data tbl :
  flush_ok (snd (api_register_plan s data tbl)).
Proof.
  unfold api_register_plan.
  destruct (truthy_value (dict_get data "username")) as [name|],
    (truthy_value (dict_get data "password")); try done.
  by destruct (query_first tbl name).
Qed.

Lemma dispatch_wf s now e body tbl :
  table_wf tbl -> table_wf (snd (dispatch cfg s now e body tbl)).
Proof.
  intros Hwf. destruct e, body; simpl; try done;
    apply run_handler_wf; auto using api_login_plan_ok, api_reset_password_plan_ok, api_register_plan_ok.
Qed.

(** C7: Every request keeps the [users] table well formed: usernames and ids
    unique, ids positive, counters non-negative integers. *)
Theorem app_handle_wf s now req tbl :
  table_wf tbl -> table_wf (snd (app_handle cfg s now req tbl)).
Proof.
  intros Hwf. destruct (app_handle_table cfg s now req tbl) as [->|[e ->]]; [done|by apply dispatch_wf].
Qed.
End Invariant.

(** ** A lockout is always backed by the failures that caused it

    The lockout state machine keeps a row's two columns consistent: a row
    whose [lockout_until] is set has a counter of at least
    [LOCKOUT_ATTEMPTS].  The lock is set only together with a counter that
    reached the threshold, the counter only grows while the lock stays,
    and a success or a reset clears both. *)
Section LockConsistency.
Context `{PasswordHasher} (cfg : Config).
Implicit Types (tbl : Table) (data : PyDict) (u : User).

Definition lock_ok u : Prop :=
  match lockout_until u with
  | None => True
  | Some _ => exists n, failed_login_attempts u = Some n /\ LOCKOUT_ATTEMPTS cfg <= n
  end.

Definition lock_consistent tbl : Prop := Forall lock_ok tbl.

Lemma run_handler_Forall (P : User -> Prop) plan tbl :
  Forall P tbl -> (forall tbl', commit tbl (snd (plan tbl)) = Some tbl' -> Forall P tbl') ->
  Forall P (snd (run_handler plan tbl)).
Proof.
  unfold run_handler. destruct (plan tbl) as [r fl]. simpl. intros Hall Hc.
  destruct (commit tbl fl) as [tbl'|] eqn:Hcm; [by apply Hc|done].
Qed.

(** The row a view modifies keeps [lock_ok]: its lockout and counter are
    the loaded ones, cleared, or a raised counter with the lock it brings. *)
Ltac lock_ok_new :=
  match goal with
  | Hq : query_first ?tbl _ = Some ?u, Hall : Forall lock_ok ?tbl |- _ =>
      pose proof (proj1 (Forall_forall _ _) Hall u (query_first_In _ _ _ Hq)) as Hu;
      unfold lock_ok in Hu |- *; simpl;
      destruct (lockout_until u); [|done];
      destruct Hu as (n' & Hn' & Hle); simplify_eq; eexists; split; [done|lia]
  end.

Lemma plans_lock_consistent s now data tbl :
  table_wf tbl -> lock_consistent tbl ->
  lock_consistent (snd (run_handler (api_login_plan cfg now data) tbl)) /\
  lock_consistent (snd (run_handler (api_reset_password_plan s now data) tbl)) /\
  lock_consistent (snd (run_handler (api_register_plan s data) tbl)).
Proof.
  intros (Hnd & Hid & _) Hall. unfold lock_consistent in *.
  split_and!; apply run_handler_Forall; try done;
    [unfold api_login_plan|unfold api_reset_password_plan|unfold api_register_plan];
    repeat case_match; simpl; intros tbl' Hc; try (by simplify_eq);
    try (eapply commit_insert_Forall; [exact Hc|done|done]);
    (eapply (commit_update_Forall lock_ok) in Hc; [exact Hc|done|by eauto with authcore|done|done|done|]);
    unfold lock_ok; simpl; try done;
    first [ lock_ok_new
          | match goal with Hge : (_ >=? _) = true |- _ => apply Z.geb_le in Hge end;
            eexists; split; [done|lia] ].
Qed.

(** C9: Every request keeps the lockout backed by its failures: if every row
    whose [lockout_until] is set has a counter of at least
    [LOCKOUT_ATTEMPTS], the same holds after the request, whatever it is
    (spec §3 and §4: a lock is set only when the count reaches the
    threshold and is cleared with the count). *)
Theorem app_handle_lock_consistent s now req tbl :
  table_wf tbl -> lock_consistent tbl -> lock_consistent (snd (app_handle cfg s now req tbl)).
Proof.
  intros Hwf Hl. destruct (app_handle_table cfg s now req tbl) as [->|[e ->]]; [done|].
  destruct (json req) as [data|]; [|by destruct e].
  destruct (plans_lock_consistent s now data tbl Hwf Hl) as (? & ? & ?). by destruct e.
Qed.
End LockConsistency.

(** Request bodies as a client sends them. *)
Definition login_request (name pw : string) : PyDict := [("username", name); ("password", pw)].
Definition reset_request (name old_pw new_pw : string) : PyDict :=
  [("username", name); ("old_password", old_pw); ("new_password", new_pw)].

Lemma login_request_fields name pw :
  name <> ""%string -> pw <> ""%string -> login_fields (login_request name pw) name pw.
Proof. intros Hn Hp. split; simpl; by rewrite bool_decide_false. Qed.

Lemma reset_request_fields name old_pw new_pw :
  name <> ""%string -> old_pw <> ""%string -> new_pw <> ""%string ->
  reset_fields (reset_request name old_pw new_pw) name old_pw new_pw.
Proof. intros Hn Ho Hw. split_and!; simpl; by rewrite bool_decide_false. Qed.

(** ** What a client can learn about usernames *)
Section Enumeration.
Context `{PasswordHasher} (cfg : Config).
Implicit Types (tbl : Table) (data : PyDict).

(** C25: Login does not reveal whether a username exists (spec §4.1 step 1,
    §7): a wrong password for an existing, unlocked account that stays below
    the threshold gets the very response an unknown username gets. *)
Theorem api_login_hides_unknown_user now data tbl tbl' name pw u n :
  table_wf tbl -> login_fields data name pw -> query_first tbl name = Some u ->
  is_locked u now = false -> check_password u pw = false -> failed_login_attempts u = Some n ->
  n + 1 < LOCKOUT_ATTEMPTS cfg -> query_first tbl' name = None ->
  fst (api_login cfg now data tbl) = fst (api_login cfg now data tbl').
Proof.
  intros Hwf Hf Hq Hl Hc Hn Hlt Hq'.
  rewrite (wrong_step_count cfg now data tbl name pw u n Hwf Hf Hq Hl Hc Hn Hlt).
  unfold api_login. by rewrite (run_handler_no_flush _ _ _ (login_plan_unknown cfg now data tbl' name pw Hf Hq')).
Qed.

(** The username a client reads from one object of a listing. *)
Definition json_username (j : JsonValue) : option string :=
  match j with
  | JObject kvs => match list_find (fun kv => kv.1 = "username"%string) kvs with
                   | Some (_, (_, JStr s)) => Some s
                   | _ => None
                   end
  | _ => None
  end.

Definition listed_usernames (r : Response) : list string :=
  match body r with
  | BJson (JArray items) => omap json_username items
  | _ => []
  end.

Lemma json_username_user now u : json_username (user_json now u) = Some (username u).
Proof. reflexivity. Qed.

(** C26: [GET /api/users] needs no credentials and lists every registered
    username, in table order, with its counter and lock state: any client
    can enumerate the accounts that the login and reset answers are
    careful not to reveal. *)
Theorem api_get_users_reveals_usernames s now tbl :
  let '(r, tbl') := app_handle cfg s now (mkHttpRequest "GET" "/api/users" None) tbl in
  status r = 200 /\ listed_usernames r = map username tbl /\ tbl' = tbl.
Proof.
  simpl. split_and!; [done| |done]. unfold listed_usernames, api_get_users. simpl.
  apply omap_map_Some, json_username_user.
Qed.
End Enumeration.

(** ** Lockout values are fresh (spec §3) *)
Section LockoutFresh.
Context `{PasswordHasher} (cfg : Config).
Implicit Types (tbl : Table) (data : PyDict).

(** The lockout values a unit of work may write: cleared, or the end of a
    window that starts now. *)
Definition writes_fresh_lockout (now : datetime) (fl : option Flush) : Prop :=
  forall t, flush_writes_lockout fl t -> t = None \/ t = Some (now + lockout_duration cfg).

Lemma flush_update_fresh now old new :
  lockout_until new = lockout_until old \/ lockout_until new = None \/
  lockout_until new = Some (now + lockout_duration cfg) ->
  writes_fresh_lockout now (flush_update old new).
Proof.
  intros Hnew t. unfold flush_update. destruct (dirty_columns old new) as [|c cols] eqn:Hd; [done|].
  simpl. rewrite <-Hd. intros [-> Hne]%dirty_lockout. naive_solver.
Qed.

Lemma view_fresh now s data tbl :
  writes_fresh_lockout now (snd (api_login_plan cfg now data tbl)) /\
  writes_fresh_lockout now (snd (api_reset_password_plan s now data tbl)) /\
  writes_fresh_lockout now (snd (api_register_plan s data tbl)).
Proof.
  split_and!; [unfold api_login_plan|unfold api_reset_password_plan|unfold api_register_plan];
    repeat case_match; simpl; try (by intros ? []); try (by intros t ->; left);
    apply flush_update_fresh; simpl; naive_solver.
Qed.

Lemma run_handler_lockout plan now tbl name u' :
  writes_fresh_lockout now (snd (plan tbl)) ->
  query_first (snd (run_handler plan tbl)) name = Some u' ->
  (exists u, query_first tbl name = Some u /\ lockout_until u = lockout_until u') \/
  lockout_until u' = None \/ lockout_until u' = Some (now + lockout_duration cfg).
Proof.
  unfold run_handler. destruct (plan tbl) as [r fl]. simpl. intros Hfresh Hq.
  destruct (commit tbl fl) as [tbl'|] eqn:Hc; [|by left; eauto].
  destruct (commit_lockout tbl fl tbl' name u' Hc Hq) as [?|Hw]; [by left|].
  right. by apply Hfresh.
Qed.

(** C11: Spec §3: [lockoutUntil], if present, is strictly in the future at
    the moment it is set.  After any request, the lockout of every row is
    the one it had before, or cleared, or an instant later than the
    request's [now]. *)
Theorem app_handle_lockout_fresh s now req tbl name u' :
  config_ok cfg ->
  query_first (snd (app_handle cfg s now req tbl)) name = Some u' ->
  (exists u, query_first tbl name = Some u /\ lockout_until u = lockout_until u') \/
  lockout_until u' = None \/ exists t, lockout_until u' = Some t /\ now < t.
Proof.
  intros Hcfg Hq. pose proof (config_ok_duration cfg Hcfg) as Hd.
  cut ((exists u, query_first tbl name = Some u /\ lockout_until u = lockout_until u') \/
       lockout_until u' = None \/ lockout_until u' = Some (now + lockout_duration cfg)).
  { intros [?|[?|?]]; [by left|by right; left|right; right; eexists; split; [done|lia]]. }
  revert Hq. destruct (app_handle_table cfg s now req tbl) as [->|[e ->]]; [by left; eauto|].
  destruct (json req) as [data|]; [|destruct e; by left; eauto].
  destruct (view_fresh now s data tbl) as (Hl & Hr & Hg).
  destruct e; simpl; try (by left; eauto); by apply run_handler_lockout.
Qed.
End LockoutFresh.

(** ** The shape of every response *)
Section ResponseShape.
Context `{PasswordHasher} (cfg : Config).
Implicit Types (tbl : Table) (data : PyDict).

(** What the pages' scripts read from an answer: a JSON error object
    begins with ["error"] and has a client-error status; a JSON success is
    a single ["message"] with [200] or [201]; the listing is an array with
    [200]; every other body has the status of its kind. *)
Definition json_shape_ok (code : Z) (j : JsonValue) : bool :=
  match j with
  | JObject ((k, JStr _) :: rest) =>
      (bool_decide (k = "error") && bool_decide (code ∈ [400; 401; 403; 409])) ||
      (bool_decide (k = "message") && bool_decide (code ∈ [200; 201]) &&
       match rest with [] => true | _ => false end)
  | JArray _ => bool_decide (code = 200)
  | _ => false
  end%string.

Definition response_ok (r : Response) : bool :=
  match body r with
  | BJson j => json_shape_ok (status r) j
  | BTemplate _ | BEmpty | BAllow _ => bool_decide (status r = 200)
  | BInternalServerError => bool_decide (status r = 500)
  | BNotFound => bool_decide (status r = 404)
  | BMethodNotAllowed _ => bool_decide (status r = 405)
  end.

Lemma run_handler_response plan tbl :
  fst (run_handler plan tbl) = fst (plan tbl) \/ fst (run_handler plan tbl) = internal_server_error.
Proof.
  unfold run_handler. destruct (plan tbl) as [r fl]. simpl.
  destruct (commit tbl fl); [by left|by right].
Qed.

Lemma run_handler_response_ok plan tbl :
  response_ok (fst (plan tbl)) = true -> response_ok (fst (run_handler plan tbl)) = true.
Proof. intros Hok. by destruct (run_handler_response plan tbl) as [->| ->]. Qed.

Lemma plans_response_ok s now data tbl :
  response_ok (fst (api_login_plan cfg now data tbl)) = true /\
  response_ok (fst (api_reset_password_plan s now data tbl)) = true /\
  response_ok (fst (api_register_plan s data tbl)) = true.
Proof.
  split_and!; [unfold api_login_plan|unfold api_reset_password_plan|unfold api_register_plan];
    repeat case_match; reflexivity.
Qed.

(** The views behind a [GET] rule answer [200]. *)
Lemma get_rule_status p e s now body tbl :
  In (p, (e, "GET"%string)) url_map -> status (fst (dispatch cfg s now e body tbl)) = 200.
Proof. simpl. intros Hin. repeat destruct Hin as [Hin|Hin]; by simplify_eq. Qed.

Lemma dispatch_response_ok s now e body tbl : response_ok (fst (dispatch cfg s now e body tbl)) = true.
Proof.
  destruct body as [data|]; [|by destruct e].
  destruct (plans_response_ok s now data tbl) as (Hl & Hr & Hg).
  destruct e; simpl; try reflexivity; by apply run_handler_response_ok.
Qed.

(** C22: Every answer of the application, whatever the method, path, body
    and table, is well shaped: JSON errors carry an ["error"] message and
    a status among [400], [401], [403] and [409], JSON successes a single
    ["message"] with [200] or [201], the listing is an array with [200];
    pages, [HEAD] and [OPTIONS] answers are [200]; a failed commit is
    [500], an unknown path [404] and a wrong method [405]. *)
Theorem app_handle_response_ok s now req tbl :
  response_ok (fst (app_handle cfg s now req tbl)) = true.
Proof.
  unfold app_handle. destruct (find _ url_map) as [[p [e m]]|] eqn:Hf; [|reflexivity].
  apply find_some in Hf as [Hin _].
  repeat case_bool_decide; try reflexivity; [apply dispatch_response_ok|].
  match goal with H : _ /\ _ |- _ => destruct H as [_ ->] end.
  pose proof (get_rule_status p e s now (json req) tbl Hin) as Hst.
  destruct (dispatch _ _ _ _ _ _). simpl in *. by rewrite Hst.
Qed.
End ResponseShape.

(** ** Request bodies that are not JSON objects *)
Section BodyErrors.
Context `{PasswordHasher} (cfg : Config).

(** A [POST] to one of the three JSON views whose body is JSON but not
    an object ([null], an array, a string or a number) makes [data.get]
    raise [AttributeError]: Flask answers [500] and nothing is written
    (spec §7 asks for a [ValidationError] for a malformed request). *)
Lemma non_object_body_500 s now p tbl :
  p ∈ ["/api/register"; "/api/login"; "/api/reset"]%string ->
  app_handle cfg s now (mkHttpRequest "POST" p None) tbl = (internal_server_error, tbl).
Proof. intros Hp. repeat (apply list.elem_of_cons in Hp as [->|Hp]; [reflexivity|]). by apply list.not_elem_of_nil in Hp. Qed.
End BodyErrors.

(** ** Counter growth: one per request *)
Section CounterGrowth.
Context `{PasswordHasher} (cfg : Config).
Implicit Types (tbl : Table) (data : PyDict).

Lemma plans_counters s now data tbl :
  flush_counters_le (max_counter tbl + 1) (snd (api_login_plan cfg now data tbl)) /\
  flush_counters_le (max_counter tbl + 1) (snd (api_reset_password_plan s now data tbl)) /\
  flush_counters_le (max_counter tbl + 1) (snd (api_register_plan s data tbl)).
Proof.
  pose proof (max_counter_nonneg tbl).
  split_and!; [unfold api_login_plan|unfold api_reset_password_plan|unfold api_register_plan];
    repeat case_match; simplify_eq/=; try done; apply flush_update_counters; simpl; try lia.
  all: match goal with
       | Hq : query_first _ _ = Some ?u |- _ =>
           pose proof (max_counter_ge tbl u (query_first_In _ _ _ Hq)) as Hge;
           destruct (failed_login_attempts u) eqn:?; simplify_eq/=; lia
       end.
Qed.

Lemma run_handler_counter plan tbl :
  flush_counters_le (max_counter tbl + 1) (snd (plan tbl)) ->
  max_counter (snd (run_handler plan tbl)) <= max_counter tbl + 1.
Proof.
  unfold run_handler. destruct (plan tbl) as [r fl]. simpl. intros Hfl.
  destruct (commit tbl fl) as [tbl'|] eqn:Hc; simpl; [|lia]. eapply commit_counter; [done|done|lia].
Qed.

(** Every request raises the largest counter of the table by one at most. *)
Lemma app_handle_counter s now req tbl :
  max_counter (snd (app_handle cfg s now req tbl)) <= max_counter tbl + 1.
Proof.
  destruct (app_handle_table cfg s now req tbl) as [->|[e ->]]; [lia|].
  destruct e, (json req) as [data|]; simpl; try lia;
    destruct (plans_counters s now data tbl) as (Hl & Hr & Hg); by apply run_handler_counter.
Qed.
End CounterGrowth.

(** ** Concrete instances

    A two-row table under the idealised bcrypt of Hasher.v: [alice] is
    unlocked with a zero counter, [bob] is locked until [500]. *)
Module Fixtures.
#[export] Existing Instance ideal_bcrypt.

Definition cfg0 : Config := Config_of_env [].
Definition alice : User := mkUser 1 "alice" ((7, "p1") : Digest) (Some 0) None.
Definition bob : User := mkUser 2 "bob" ((8, "pw") : Digest) (Some 3) (Some 500).
Definition tbl0 : Table := [alice; bob].
Definition salt0 : Salt := 9.
End Fixtures.

Import Fixtures.


Lemma api_login_locked_witness :
  api_login cfg0 100 (login_request "bob" "pw") tbl0 = (locked_response 500, tbl0).
Proof. apply (api_login_locked cfg0 100 _ tbl0 "bob" "pw" bob 500); concrete. Defined.

Lemma api_login_success_witness :
  api_login cfg0 100 (login_request "alice" "p1") tbl0 =
    (json_message 200 "Login successful",
     replace_user tbl0 alice (set_lockout_until (set_failed_login_attempts alice (Some 0)) None)).
Proof. apply (api_login_success cfg0 100 _ tbl0 "alice" "p1" alice); concrete. Defined.

Lemma api_login_wrong_password_witness :
  api_login cfg0 100 (login_request "alice" "bad") tbl0 =
    (json_error 401 "Invalid credentials",
     replace_user tbl0 alice (set_failed_login_attempts alice (Some 1))).
Proof. apply (api_login_wrong_password cfg0 100 _ tbl0 "alice" "bad" alice 0); concrete. Defined.

Lemma api_login_missing_field_witness :
  api_login cfg0 100 (login_request "alice" "") tbl0 =
    (json_error 400 "Username and password are required", tbl0).
Proof. apply api_login_missing_field. right. concrete. Defined.

Lemma api_register_new_witness :
  api_register salt0 (login_request "carol" "c") tbl0 =
    (json_message 201 "User carol registered successfully",
     tbl0 ++ [mkUser 3 "carol" (generate_password_hash salt0 "c") (Some 0) None]).
Proof. apply (api_register_new salt0 _ tbl0 "carol" "c"); concrete. Defined.


Lemma api_reset_password_success_witness :
  api_reset_password salt0 100 (reset_request "alice" "p1" "p2") tbl0 =
    (json_message 200 "Password reset successful",
     replace_user tbl0 alice (set_lockout_until
        (set_failed_login_attempts (set_password salt0 alice "p2") (Some 0)) None)).
Proof. apply (api_reset_password_success salt0 100 _ tbl0 "alice" "p1" "p2" alice); concrete. Defined.

Lemma api_reset_password_rejected_witness :
  api_reset_password salt0 100 (reset_request "bob" "guess" "p2") tbl0 =
    (json_error 401 "Invalid username or old password", tbl0).
Proof. apply (api_reset_password_rejected salt0 100 _ tbl0 "bob" "guess" "p2"); concrete. Defined.

Lemma api_reset_password_locked_witness :
  api_reset_password salt0 100 (reset_request "bob" "pw" "p2") tbl0 =
    (json_error 403 "Account is locked, cannot reset password right now", tbl0).
Proof. apply (api_reset_password_locked salt0 100 _ tbl0 "bob" "pw" "p2" bob); concrete. Defined.

Lemma app_handle_wf_witness :
  table_wf (snd (app_handle cfg0 salt0 100 (mkHttpRequest "POST" "/api/login" (Some (login_request "alice" "bad"))) tbl0)).
Proof. apply app_handle_wf. concrete. Defined.

Lemma login_after_expiry_witness :
  api_login cfg0 600 (login_request "bob" "pw") tbl0 =
    (json_message 200 "Login successful",
     replace_user tbl0 bob (set_lockout_until (set_failed_login_attempts bob (Some 0)) None)).
Proof. apply (login_after_expiry cfg0 600 _ tbl0 "bob" "pw" bob 500); concrete. Defined.

Lemma relock_after_expiry_witness :
  api_login cfg0 600 (login_request "bob" "bad") tbl0 =
    (json_error 403 "Account locked due to too many failed attempts",
     replace_user tbl0 bob (set_lockout_until (set_failed_login_attempts bob (Some (3 + 1)))
                                             (Some (600 + lockout_duration cfg0)))).
Proof. apply (relock_after_expiry cfg0 600 _ tbl0 "bob" "bad" bob 500 3); concrete. Defined.

Lemma app_handle_lockout_fresh_witness :
  let req := mkHttpRequest "POST" "/api/login" (Some (login_request "alice" "bad")) in
  let tbl := [mkUser 1 "alice" ((7, "p1") : Digest) (Some 2) None] in
  let u' := mkUser 1 "alice" ((7, "p1") : Digest) (Some 3) (Some (100 + lockout_duration cfg0)) in
  (exists u, query_first tbl "alice" = Some u /\ lockout_until u = lockout_until u') \/
  lockout_until u' = None \/ exists t, lockout_until u' = Some t /\ 100 < t.
Proof.
  intros req tbl u'. apply (app_handle_lockout_fresh cfg0 salt0 100 req tbl "alice" u'); [concrete|].
  vm_compute. reflexivity.
Defined.

Lemma api_login_hides_unknown_user_witness :
  fst (api_login cfg0 100 (login_request "alice" "bad") tbl0) =
  fst (api_login cfg0 100 (login_request "alice" "bad") [bob]).
Proof. apply (api_login_hides_unknown_user cfg0 100 _ tbl0 [bob] "alice" "bad" alice 0); concrete. Defined.

Lemma app_handle_lock_consistent_witness :
  lock_consistent cfg0 (snd (app_handle cfg0 salt0 100
                               (mkHttpRequest "POST" "/api/login" (Some (login_request "alice" "bad"))) tbl0)).
Proof.
  apply app_handle_lock_consistent; [concrete|].
  repeat constructor. unfold lock_ok. simpl. exists 3. split; [reflexivity|cbn; lia].
Defined.
