(* ===== verification/App.v ===== *)
(** * App: start-up of [create_app] and sequential serving

    [create_app] (src/app.py, lines 7-30) configures the application from
    a configuration class, forces the database URI under the instance
    folder and runs [db.create_all()], which creates the [users] table
    when [app.db] has none and keeps the rows it has otherwise.  [serve]
    is [app.run()] answering one request after the other through the URL
    map of Api.v, each on the table the previous one left.  A name
    registered twice is refused the second time; a session of [k] requests
    raises the counters by at most [k]; after a reset the login follows the
    key of the new password. *)
From S2P Require Import Prelude Config Hasher User Store Api.
Import Config.

(** [create_app]: the application's configuration and the [users] table
    after [db.create_all()]; [app_db] is the table stored in
    [instance/app.db], if the file has one.  [os.makedirs] and the
    initialisation of the extensions change no state of the model. *)
Definition create_app `{PasswordHasher} (config_class : Config) (instance_path : string) (app_db : option Table)
    : Config * Table :=
  (create_app_config config_class instance_path, default [] app_db).

Section Sessions.
Context `{PasswordHasher} (cfg : Config).
Implicit Types (tbl : Table).

(** A client session through the router: each request is served with
    the salt and the clock reading of its moment, on the table the
    previous one left. *)
Fixpoint serve (reqs : list (Salt * datetime * HttpRequest)) (tbl : Table) : list Response * Table :=
  match reqs with
  | [] => ([], tbl)
  | (s, now, req) :: rest =>
      let '(r, tbl1) := app_handle cfg s now req tbl in
      let '(rs, tbl2) := serve rest tbl1 in
      (r :: rs, tbl2)
  end.

Lemma app_handle_login s now data tbl :
  app_handle cfg s now (mkHttpRequest "POST" "/api/login" (Some data)) tbl = api_login cfg now data tbl.
Proof. reflexivity. Qed.

Lemma app_handle_reset s now data tbl :
  app_handle cfg s now (mkHttpRequest "POST" "/api/reset" (Some data)) tbl = api_reset_password s now data tbl.
Proof. reflexivity. Qed.


Lemma app_handle_register s now data tbl :
  app_handle cfg s now (mkHttpRequest "POST" "/api/register" (Some data)) tbl = api_register s data tbl.
Proof. reflexivity. Qed.

Lemma app_handle_keeps_wf s now req tbl :
  table_wf tbl -> table_wf (snd (app_handle cfg s now req tbl)).
Proof.
  intros Hwf. destruct (app_handle_table cfg s now req tbl) as [->|[e ->]]; [done|by apply dispatch_wf].
Qed.

(** C24: Spec §8: a registration followed by a second registration of the
    same name answers [201] then [409] ([ConflictError]), and the table
    gains exactly one row, the first one. *)
Theorem register_twice tbl (s1 s2 : Salt) now1 now2 name pw1 pw2 :
  query_first tbl name = None -> name <> ""%string -> pw1 <> ""%string -> pw2 <> ""%string ->
  serve [(s1, now1, mkHttpRequest "POST" "/api/register" (Some (login_request name pw1)));
         (s2, now2, mkHttpRequest "POST" "/api/register" (Some (login_request name pw2)))] tbl =
    ([json_message 201 ("User " ++ name ++ " registered successfully");
      json_error 409 "Username already exists"],
     tbl ++ [mkUser (new_rowid tbl) name (generate_password_hash s1 pw1) (Some 0) None]).
Proof.
  intros Hq Hname Hpw1 Hpw2. simpl. rewrite !app_handle_register.
  set (row := mkUser (new_rowid tbl) name (generate_password_hash s1 pw1) (Some 0) None).
  assert (api_register s1 (login_request name pw1) tbl =
            (json_message 201 ("User " ++ name ++ " registered successfully"), tbl ++ [row])) as ->.
  { unfold api_register, run_handler.
    rewrite (register_plan_new s1 _ tbl name pw1 (login_request_fields name pw1 Hname Hpw1) Hq).
    simpl. unfold insert_row. apply query_first_None in Hq. by rewrite bool_decide_false. }
  assert (query_first (tbl ++ [row]) name = Some row) as Hq2.
  { unfold query_first in *. rewrite find_app, Hq. simpl. by rewrite bool_decide_true. }
  simpl. rewrite app_handle_register. unfold api_register. rewrite (run_handler_no_flush _ _ _
    (register_plan_taken s2 _ _ name pw2 row (login_request_fields name pw2 Hname Hpw2) Hq2)).
  done.
Qed.

(** C23: Counters stay small: a session of [k] requests raises the largest
    failed-login counter of the table by at most [k], so no session the
    server can answer brings a counter near the 64-bit limit of SQLite's
    [INTEGER] (the reason the model keeps counters in [Z]). *)
Theorem serve_counter_bound reqs tbl :
  max_counter (snd (serve reqs tbl)) <= max_counter tbl + Z.of_nat (length reqs).
Proof.
  revert tbl. induction reqs as [|[[s now] req] reqs IH]; intros tbl; simpl; [lia|].
  pose proof (app_handle_counter cfg s now req tbl) as H1.
  destruct (app_handle cfg s now req tbl) as [r tbl1]. specialize (IH tbl1).
  destruct (serve reqs tbl1) as [rs tbl2]. simpl in *. lia.
Qed.
End Sessions.

(** ** Login after a password reset *)
Section AfterReset.
Context `{PasswordHasher} (cfg : Config).
Implicit Types (tbl : Table) (u : User).

(** C19: A client resets its password to [new_pw] and then logs in with
    [q]: the reset answers [200] and the login succeeds exactly when [q]
    has the key of [new_pw] (spec §8: the new password is required, the
    old one rejected when its key differs). *)
Theorem login_after_reset (s s' : Salt) now now' data tbl name old_pw new_pw u q :
  table_wf tbl -> reset_fields data name old_pw new_pw -> query_first tbl name = Some u ->
  check_password u old_pw = true -> is_locked u now = false -> q <> ""%string ->
  exists r, fst (serve cfg [(s, now, mkHttpRequest "POST" "/api/reset" (Some data));
                        (s', now', mkHttpRequest "POST" "/api/login" (Some (login_request name q)))] tbl) =
              [json_message 200 "Password reset successful"; r] /\
            (status r = 200 <-> password_key q = password_key new_pw).
Proof.
  intros Hwf Hf Hq Hc Hl Hqne. pose proof (query_first_Some _ _ _ Hq) as [Hin Hname].
  set (u' := set_lockout_until (set_failed_login_attempts (set_password s u new_pw) (Some 0)) None).
  simpl. rewrite app_handle_reset.
  assert (api_reset_password s now data tbl = (json_message 200 "Password reset successful", replace_user tbl u u'))
    as -> by (handler_branch; by eapply reset_plan_success).
  rewrite app_handle_login.
  destruct (replace_step tbl name u u' Hwf Hq) as [Hwf1 Hq1]; try done.
  { split; [apply (row_of_wf tbl name u Hwf Hq)|simpl; lia]. }
  assert (login_fields (login_request name q) name q) as Hlf.
  { apply login_request_fields; [|done]. destruct Hf as [Hu _]. by apply truthy_value_Some in Hu as [_ ?]. }
  assert (is_locked u' now' = false) as Hunl by done.
  assert (check_password u' q = bool_decide (password_key new_pw = password_key q)) as Hkey
    by apply check_generate.
  unfold api_login. case_bool_decide as Hk.
  - erewrite run_handler_update; [| exact (login_plan_success cfg now' _ _ name q u' Hlf Hq1 Hunl Hkey)
                                 | exact Hwf1 | eapply query_first_In, Hq1 | done | done].
    eexists; split; [reflexivity|]. simpl. split; intros; congruence.
  - pose proof (login_plan_wrong cfg now' _ _ name q u' 0 Hlf Hq1 Hunl Hkey eq_refl) as Hp.
    destruct (_ >=? _); (erewrite run_handler_update; [| exact Hp | exact Hwf1 | eapply query_first_In, Hq1
                                                       | done | done]);
      eexists; (split; [reflexivity|]); simpl; split; intros; congruence.
Qed.
End AfterReset.

Import Fixtures.

Lemma register_twice_witness :
  serve cfg0 [(salt0, 100, mkHttpRequest "POST" "/api/register" (Some (login_request "carol" "c1")));
              (salt0, 200, mkHttpRequest "POST" "/api/register" (Some (login_request "carol" "c2")))] tbl0 =
    ([json_message 201 ("User " ++ "carol" ++ " registered successfully");
      json_error 409 "Username already exists"],
     tbl0 ++ [mkUser (new_rowid tbl0) "carol" (generate_password_hash salt0 "c1") (Some 0) None]).
Proof. apply (register_twice cfg0 tbl0 salt0 salt0 100 200 "carol" "c1" "c2"); concrete. Defined.

Lemma login_after_reset_witness :
  exists r, fst (serve cfg0 [(salt0, 100, mkHttpRequest "POST" "/api/reset" (Some (reset_request "alice" "p1" "p2")));
                             (salt0, 200, mkHttpRequest "POST" "/api/login" (Some (login_request "alice" "p1")))] tbl0) =
              [json_message 200 "Password reset successful"; r] /\
            (status r = 200 <-> password_key "p1" = password_key "p2").
Proof. apply (login_after_reset cfg0 salt0 salt0 100 200 _ tbl0 "alice" "p1" "p2" alice "p1"); concrete. Defined.
