(* ===== verification/Lockout.v ===== *)
(** * Lockout: runs of login attempts against one account

    The lockout state machine of [api_login] seen over a sequence of
    requests: [login_run] feeds the attempts [(now, body)] one after the
    other to [api_login], each on the table the previous one left.  The
    theorems follow spec §8: the account locks on the attempt that brings
    the counter to [LOCKOUT_ATTEMPTS] and not before, at that attempt's
    time plus the window.  Over any window of the lockout's length at most
    [LOCKOUT_ATTEMPTS] wrong passwords sent one after the other are checked
    by [api_login]. *)
From S2P Require Import Prelude Config Hasher User Store Api.
Import Config.

Section Runs.
Context `{PasswordHasher} (cfg : Config).
Implicit Types (tbl : Table) (u : User).

Fixpoint login_run (attempts : list (datetime * PyDict)) (tbl : Table) : list Response * Table :=
  match attempts with
  | [] => ([], tbl)
  | (now, data) :: rest =>
      let '(r, tbl1) := api_login cfg now data tbl in
      let '(rs, tbl2) := login_run rest tbl1 in
      (r :: rs, tbl2)
  end.

Definition attempts (name pw : string) (ts : list datetime) : list (datetime * PyDict) :=
  map (fun t => (t, login_request name pw)) ts.

Lemma login_run_app a1 a2 tbl :
  login_run (a1 ++ a2) tbl =
    let '(rs1, tbl1) := login_run a1 tbl in
    let '(rs2, tbl2) := login_run a2 tbl1 in (rs1 ++ rs2, tbl2).
Proof.
  revert tbl. induction a1 as [|[t d] a1 IH]; intros tbl; simpl.
  - by destruct (login_run a2 tbl).
  - destruct (api_login cfg t d tbl) as [r tbl1]. rewrite IH.
    destruct (login_run a1 tbl1) as [rs1 t1]. by destruct (login_run a2 t1).
Qed.

Lemma set_failed_twice u a b :
  set_failed_login_attempts (set_failed_login_attempts u a) b = set_failed_login_attempts u b.
Proof. by destruct u. Qed.

(** C13: Below the threshold: [k] consecutive wrong passwords on an unlocked
    account with counter [n], where [n + k < LOCKOUT_ATTEMPTS], are each
    answered [401], raise the counter to [n + k] and leave the account
    unlocked (spec §8: the attempt before the threshold does not lock). *)
Theorem wrong_logins_below_threshold tbl name pw u n ts :
  table_wf tbl -> query_first tbl name = Some u ->
  lockout_until u = None -> failed_login_attempts u = Some n ->
  name <> ""%string -> pw <> ""%string -> check_password u pw = false ->
  n + Z.of_nat (length ts) < LOCKOUT_ATTEMPTS cfg ->
  let '(rs, tbl') := login_run (attempts name pw ts) tbl in
  rs = repeat (json_error 401 "Invalid credentials") (length ts) /\ table_wf tbl' /\
  query_first tbl' name = Some (set_failed_login_attempts u (Some (n + Z.of_nat (length ts)))).
Proof.
  revert tbl u n. induction ts as [|t ts IH]; intros tbl u n Hwf Hq Hl Hn Hname Hpw Hc Hlt; simpl.
  - split_and!; [done|done|]. rewrite Z.add_0_r, Hq. by destruct u; simpl in *; subst.
  - simpl in Hlt. assert (is_locked u t = false) as Hunl by (unfold is_locked; by rewrite Hl).
    rewrite (wrong_step_count cfg t _ tbl name pw u n Hwf
               (login_request_fields name pw Hname Hpw) Hq Hunl Hc Hn) by lia.
    destruct (replace_step tbl name u (set_failed_login_attempts u (Some (n + 1))) Hwf Hq)
      as [Hwf1 Hq1]; try done.
    { split; simpl; [apply (row_of_wf tbl name u Hwf Hq)|]. pose proof (row_of_wf tbl name u Hwf Hq) as [_ Hr].
      rewrite Hn in Hr. lia. }
    specialize (IH _ _ (n + 1) Hwf1 Hq1 Hl eq_refl Hname Hpw Hc ltac:(lia)).
    destruct (login_run _ _) as [rs tbl']. destruct IH as (-> & Hwf' & Hq').
    split_and!; [done|done|]. rewrite Hq', set_failed_twice. do 3 f_equal. lia.
Qed.

(** C5: At the threshold: from a fresh unlocked account (counter [0]),
    [LOCKOUT_ATTEMPTS] consecutive wrong passwords are answered [401]
    until the last, which is answered [403] and locks the account until
    [t + LOCKOUT_DURATION], [t] being the time of that last attempt; the
    counter then equals [LOCKOUT_ATTEMPTS] (spec §8). *)
Theorem lockout_on_threshold tbl name pw u ts t :
  table_wf tbl -> query_first tbl name = Some u ->
  lockout_until u = None -> failed_login_attempts u = Some 0 ->
  name <> ""%string -> pw <> ""%string -> check_password u pw = false ->
  Z.of_nat (length ts) + 1 = LOCKOUT_ATTEMPTS cfg ->
  let '(rs, tbl') := login_run (attempts name pw (ts ++ [t])) tbl in
  rs = repeat (json_error 401 "Invalid credentials") (length ts) ++
       [json_error 403 "Account locked due to too many failed attempts"] /\
  table_wf tbl' /\
  query_first tbl' name = Some (set_lockout_until (set_failed_login_attempts u (Some (LOCKOUT_ATTEMPTS cfg)))
                                                  (Some (t + lockout_duration cfg))).
Proof.
  intros Hwf Hq Hl Hn Hname Hpw Hc Hlen.
  unfold attempts. rewrite map_app, login_run_app.
  pose proof (wrong_logins_below_threshold tbl name pw u 0 ts Hwf Hq Hl Hn Hname Hpw Hc ltac:(lia)) as Hb.
  unfold attempts in Hb. destruct (login_run _ tbl) as [rs1 tbl1]. destruct Hb as (-> & Hwf1 & Hq1).
  set (u1 := set_failed_login_attempts u (Some (0 + Z.of_nat (length ts)))) in *.
  assert (is_locked u1 t = false) as Hunl by (unfold is_locked; simpl; by rewrite Hl).
  simpl. rewrite (wrong_step_lock cfg t _ tbl1 name pw u1 _ Hwf1
                    (login_request_fields name pw Hname Hpw) Hq1 Hunl Hc eq_refl) by lia.
  set (u2 := set_lockout_until _ _).
  destruct (replace_step tbl1 name u1 u2 Hwf1 Hq1) as [Hwf2 Hq2]; try done.
  { pose proof (row_of_wf tbl name u Hwf Hq) as [Hid _]. split; simpl; lia. }
  split_and!; [done|done|]. rewrite Hq2. unfold u2, u1. do 4 f_equal. lia.
Qed.

End Runs.

(** ** The guess budget of a lockout window

    An attacker who does not know the password sends guesses for one
    account.  An answer that carries [locked_until] is given without
    checking the password; every other answer to a well-formed guess is
    the verdict of a password check.  [guess_budget t_end u] is how many
    checks the row [u] still allows before the instant [t_end]: none while
    it stays locked past [t_end], otherwise [LOCKOUT_ATTEMPTS] minus the
    counter, and at least the one that sets the next lock. *)
Section GuessBudget.
Context `{PasswordHasher} (cfg : Config).
Implicit Types (tbl : Table) (u : User).

Definition guess_attempts (name : string) (guesses : list (datetime * string)) : list (datetime * PyDict) :=
  map (fun g => (g.1, login_request name g.2)) guesses.

Definition lock_answer (r : Response) : bool :=
  match body r with
  | BJson (JObject kvs) => bool_decide ("locked_until"%string ∈ kvs.*1)
  | _ => false
  end.

Fixpoint checked (rs : list Response) : nat :=
  match rs with
  | [] => 0
  | r :: rs' => (if lock_answer r then 0 else 1) + checked rs'
  end.

Definition guess_budget (t_end : datetime) (u : User) : Z :=
  match lockout_until u, failed_login_attempts u with
  | Some l, _ => if t_end <=? l then 0 else Z.max 1 (LOCKOUT_ATTEMPTS cfg - default 0 (failed_login_attempts u))
  | None, c => Z.max 1 (LOCKOUT_ATTEMPTS cfg - default 0 c)
  end.

Lemma budget_unlocked t t_end u :
  is_locked u t = false -> t < t_end ->
  guess_budget t_end u = Z.max 1 (LOCKOUT_ATTEMPTS cfg - default 0 (failed_login_attempts u)).
Proof.
  intros Hl Hlt. rewrite is_locked_false in Hl. unfold guess_budget.
  destruct (lockout_until u) as [l|]; [|by destruct (failed_login_attempts u)].
  specialize (Hl l eq_refl). by rewrite (proj2 (Z.leb_gt t_end l)) by lia.
Qed.

Lemma guess_step_ok tbl name u n u' :
  table_wf tbl -> query_first tbl name = Some u -> failed_login_attempts u = Some n ->
  u' = set_failed_login_attempts u (Some (n + 1)) \/
  (exists t, u' = set_lockout_until (set_failed_login_attempts u (Some (n + 1))) t) ->
  table_wf (replace_user tbl u u') /\ query_first (replace_user tbl u u') name = Some u'.
Proof.
  intros Hwf Hq Hn Hu'. pose proof (row_of_wf tbl name u Hwf Hq) as [Hid Hr].
  rewrite Hn in Hr. apply replace_step; try done;
    destruct Hu' as [->|[t ->]]; try done; split; simpl; lia.
Qed.

(** The budget bounds the checks of any run of wrong guesses made before
    [t_end], when a lock set by one of them lasts until [t_end] at least. *)
Lemma guess_run_budget name t_end guesses : forall tbl u,
  table_wf tbl -> query_first tbl name = Some u -> name <> ""%string ->
  Forall (fun g => g.2 <> ""%string /\ check_password u g.2 = false /\
                   g.1 < t_end <= g.1 + lockout_duration cfg) guesses ->
  Z.of_nat (checked (login_run cfg (guess_attempts name guesses) tbl).1) <= guess_budget t_end u.
Proof.
  induction guesses as [|[t pw] guesses IH]; intros tbl u Hwf Hq Hname Hall; [simpl; unfold guess_budget;
    destruct (lockout_until u), (failed_login_attempts u); try case_match; lia|].
  apply list.Forall_cons in Hall as [(Hpw & Hc & Ht & Htend) Hall]. simpl in Ht, Htend, Hpw, Hc.
  pose proof (login_request_fields name pw Hname Hpw) as Hf.
  destruct (row_of_wf tbl name u Hwf Hq) as [_ Hr]. destruct (failed_login_attempts u) as [n|] eqn:Hn; [|done].
  cbn [guess_attempts map login_run fst snd].
  destruct (is_locked u t) eqn:Hlk.
  - apply is_locked_true in Hlk as (l & Hl & Hlt).
    unfold api_login at 1. rewrite (run_handler_no_flush _ _ _ (login_plan_locked cfg t _ tbl name pw u l Hf Hq Hl Hlt)).
    pose proof (IH tbl u Hwf Hq Hname Hall) as IH'. destruct (login_run _ _ _) as [rs tbl']. exact IH'.
  - rewrite (budget_unlocked t t_end u Hlk Ht), Hn. simpl.
    destruct (decide (n + 1 < LOCKOUT_ATTEMPTS cfg)) as [Hlt|Hge].
    + rewrite (wrong_step_count cfg t _ tbl name pw u n Hwf Hf Hq Hlk Hc Hn Hlt).
      destruct (guess_step_ok tbl name u n (set_failed_login_attempts u (Some (n + 1))) Hwf Hq Hn)
        as [Hwf1 Hq1]; [by left|].
      pose proof (IH _ _ Hwf1 Hq1 Hname Hall) as IH'. destruct (login_run _ _ _) as [rs tbl'].
      simpl in IH' |- *. rewrite (budget_unlocked t t_end) in IH' by done. simpl in IH'. lia.
    + rewrite (wrong_step_lock cfg t _ tbl name pw u n Hwf Hf Hq Hlk Hc Hn) by lia.
      destruct (guess_step_ok tbl name u n (set_lockout_until (set_failed_login_attempts u (Some (n + 1)))
                                                (Some (t + lockout_duration cfg))) Hwf Hq Hn)
        as [Hwf1 Hq1]; [by right; eexists|].
      pose proof (IH _ _ Hwf1 Hq1 Hname Hall) as IH'. destruct (login_run _ _ _) as [rs tbl'].
      unfold guess_budget in IH'. simpl in IH' |- *. rewrite (proj2 (Z.leb_le _ _)) in IH' by lia. lia.
Qed.

(** C6: At most [LOCKOUT_ATTEMPTS] guesses per lockout window: of any
    sequence of wrong passwords sent to [api_login] for one account, all
    within one window of [LOCKOUT_DURATION_MINUTES] (each before [t_end]
    and at most the lockout duration earlier), at most [LOCKOUT_ATTEMPTS]
    are checked (at least one when the setting is below one); every other
    answer is the lockout's [403] carrying [locked_until] (spec §4.1:
    progressive lockout bounds online guessing). *)
Theorem guesses_per_window tbl name u guesses t_end :
  table_wf tbl -> query_first tbl name = Some u -> name <> ""%string ->
  Forall (fun g => g.2 <> ""%string /\ check_password u g.2 = false /\
                   g.1 < t_end <= g.1 + lockout_duration cfg) guesses ->
  Z.of_nat (checked (login_run cfg (guess_attempts name guesses) tbl).1) <= Z.max 1 (LOCKOUT_ATTEMPTS cfg).
Proof.
  intros Hwf Hq Hname Hall. pose proof (guess_run_budget name t_end guesses tbl u Hwf Hq Hname Hall) as Hb.
  destruct (row_of_wf tbl name u Hwf Hq) as [_ Hr]. unfold guess_budget in Hb.
  destruct (failed_login_attempts u) as [n|]; [|done]. simpl in Hb.
  destruct (lockout_until u); [case_match|]; lia.
Qed.

End GuessBudget.

Import Fixtures.

Lemma wrong_logins_below_threshold_witness :
  let '(rs, tbl') := login_run cfg0 (attempts "alice" "bad" [10; 20]) tbl0 in
  rs = repeat (json_error 401 "Invalid credentials") 2 /\ table_wf tbl' /\
  query_first tbl' "alice" = Some (set_failed_login_attempts alice (Some (0 + 2))).
Proof. apply (wrong_logins_below_threshold cfg0 tbl0 "alice" "bad" alice 0 [10; 20]); concrete. Defined.

Lemma lockout_on_threshold_witness :
  let '(rs, tbl') := login_run cfg0 (attempts "alice" "bad" ([10; 20] ++ [30])) tbl0 in
  rs = repeat (json_error 401 "Invalid credentials") 2 ++
       [json_error 403 "Account locked due to too many failed attempts"] /\
  table_wf tbl' /\
  query_first tbl' "alice" = Some (set_lockout_until (set_failed_login_attempts alice (Some 3))
                                                     (Some (30 + lockout_duration cfg0))).
Proof. apply (lockout_on_threshold cfg0 tbl0 "alice" "bad" alice [10; 20] 30); concrete. Defined.

Lemma guesses_per_window_witness :
  Z.of_nat (checked (login_run cfg0 (guess_attempts "alice" [(10, "x"); (20, "y"); (30, "z"); (40, "w")]) tbl0).1)
    <= Z.max 1 (LOCKOUT_ATTEMPTS cfg0).
Proof.
  apply (guesses_per_window cfg0 tbl0 "alice" alice _ 100); [concrete|concrete|concrete|].
  repeat constructor; simpl; concrete.
Defined.
