(* ===== verification/Spec.v ===== *)
(** * Spec: the Account Authenticator of spec.md and the refinement

    [Authenticator] states what spec.md §4 promises, over an abstract
    state: a finite map from usernames to the spec's User (the key of the
    password, the failed-attempt counter, the optional lockout instant), with
    the outcomes of the spec's error taxonomy (§7).  [abs] relates a [users]
    table to an abstract state: the same names, and for each the same counter
    and lockout, and a stored hash that accepts exactly the passwords with the
    abstract key.  The refinement theorems show that each handler of
    src/app.py, with its response classified by status code, implements the
    abstract operation: same outcome, related final states.  Where the code
    and the spec part (the login's validation, the timestamp on the
    threshold lockout) the statements say so.  [serve_refines] lifts the
    three to sessions: a sequence of requests served through the router is
    a forward simulation of the abstract run of the same operations. *)
From stdpp Require Import gmap.
From S2P Require Import Prelude Config Hasher User Store Api App.
Import Config.

Module Authenticator.

Inductive Outcome :=
| Success
| ValidationError
| ConflictError
| InvalidCredentialsError
| LockedError
| StoreError.

#[global] Instance Outcome_eq_dec : EqDecision Outcome.
Proof. solve_decision. Defined.

Record AUser := mkAUser { a_key : string; a_failed : Z; a_lockout : option datetime }.

Abbreviation AState := (gmap string AUser).

Section Operations.
Context (key : string -> string) (cfg : Config).

(** §3: locked iff [lockoutUntil] is present and later than now. *)
Definition a_locked (a : AUser) (now : datetime) : bool :=
  match a_lockout a with Some t => now <? t | None => false end.

(** §4.1 Register. *)
Definition register (st : AState) (name pw : string) : Outcome * AState :=
  if bool_decide (name = ""%string \/ pw = ""%string) then (ValidationError, st)
  else match st !! name with
       | Some _ => (ConflictError, st)
       | None => (Success, <[name := mkAUser (key pw) 0 None]> st)
       end.

(** §4.1 Login, steps 1 to 4 in order. *)
Definition login (st : AState) (now : datetime) (name pw : string) : Outcome * AState :=
  match st !! name with
  | None => (InvalidCredentialsError, st)
  | Some a =>
      if a_locked a now then (LockedError, st)
      else if bool_decide (a_key a = key pw) then (Success, <[name := mkAUser (a_key a) 0 None]> st)
      else
        let n := a_failed a + 1 in
        if n >=? LOCKOUT_ATTEMPTS cfg
        then (LockedError, <[name := mkAUser (a_key a) n (Some (now + lockout_duration cfg))]> st)
        else (InvalidCredentialsError, <[name := mkAUser (a_key a) n (a_lockout a)]> st)
  end.

(** §4.1 ResetPassword. *)
Definition reset_password (st : AState) (now : datetime) (name old_pw new_pw : string) : Outcome * AState :=
  if bool_decide (name = ""%string \/ old_pw = ""%string \/ new_pw = ""%string) then (ValidationError, st)
  else match st !! name with
       | None => (InvalidCredentialsError, st)
       | Some a =>
           if negb (bool_decide (a_key a = key old_pw)) then (InvalidCredentialsError, st)
           else if a_locked a now then (LockedError, st)
           else (Success, <[name := mkAUser (key new_pw) 0 None]> st)
       end.
End Operations.
End Authenticator.

Import Authenticator.

Section Refinement.
Context `{PasswordHasher} (cfg : Config).
Implicit Types (tbl : Table) (st : AState) (u : User) (a : AUser).

(** A row implements an abstract user. *)
Definition rel u a : Prop :=
  (forall q, check_password u q = bool_decide (a_key a = password_key q)) /\
  failed_login_attempts u = Some (a_failed a) /\ lockout_until u = a_lockout a.

(** The table implements the abstract state, name by name. *)
Definition abs tbl st : Prop :=
  forall name, match query_first tbl name, st !! name with
               | Some u, Some a => rel u a
               | None, None => True
               | _, _ => False
               end.

(** The outcome a client reads from the status code. *)
Definition classify (r : Response) : Outcome :=
  if (status r =? 200) || (status r =? 201) then Success
  else if status r =? 400 then ValidationError
  else if status r =? 409 then ConflictError
  else if status r =? 401 then InvalidCredentialsError
  else if status r =? 403 then LockedError
  else StoreError.

Lemma abs_found tbl st name u :
  abs tbl st -> query_first tbl name = Some u -> exists a, st !! name = Some a /\ rel u a.
Proof. intros Habs Hq. specialize (Habs name). rewrite Hq in Habs. destruct (st !! name); naive_solver. Qed.

Lemma abs_missing tbl st name :
  abs tbl st -> query_first tbl name = None -> st !! name = None.
Proof. intros Habs Hq. specialize (Habs name). rewrite Hq in Habs. by destruct (st !! name). Qed.

Lemma rel_locked u a now : rel u a -> is_locked u now = a_locked a now.
Proof. intros (_ & _ & Hl). unfold is_locked, a_locked. rewrite Hl. destruct (a_lockout a); [|done]. apply Z.gtb_ltb. Qed.

Lemma abs_singleton u a : rel u a -> abs [u] {[username u := a]}.
Proof.
  intros Hrel name. unfold query_first. simpl. case_bool_decide as Heq.
  - subst name. by rewrite lookup_singleton_eq.
  - by rewrite lookup_singleton_ne.
Qed.

(** Replacing the row of [name] refines updating the abstract user. *)
Lemma abs_replace tbl st name u u' a' :
  table_wf tbl -> abs tbl st -> query_first tbl name = Some u ->
  id u' = id u -> username u' = username u -> rel u' a' ->
  abs (replace_user tbl u u') (<[name := a']> st).
Proof.
  intros Hwf Habs Hq Hid Hname Hrel name'. pose proof (query_first_Some _ _ _ Hq) as [Hin <-].
  rewrite query_first_replace by done.
  case_bool_decide as Heq.
  - subst name'. by rewrite lookup_insert_eq.
  - rewrite lookup_insert_ne by congruence. apply Habs.
Qed.

(** Appending a row under a fresh name refines inserting an abstract user. *)
Lemma abs_append tbl st v a :
  abs tbl st -> username v ∉ map username tbl -> rel v a ->
  abs (tbl ++ [v]) (<[username v := a]> st).
Proof.
  intros Habs Hfresh Hrel name'. rewrite query_first_app.
  destruct (query_first tbl name') as [u|] eqn:Hq.
  - pose proof (query_first_Some _ _ _ Hq) as [Hin Hn]. specialize (Habs name'). rewrite Hq in Habs.
    rewrite lookup_insert_ne; [done|]. intros Heq. apply Hfresh. rewrite Heq, <-Hn. by apply In_map_elem.
  - case_bool_decide as Heq.
    + subst name'. by rewrite lookup_insert_eq.
    + rewrite lookup_insert_ne by congruence. specialize (Habs name'). by rewrite Hq in Habs.
Qed.

Lemma login_step_refines now data tbl st name pw :
  table_wf tbl -> abs tbl st -> login_fields data name pw ->
  let '(r, tbl') := api_login cfg now data tbl in
  let '(o, st') := Authenticator.login password_key cfg st now name pw in
  classify r = o /\ abs tbl' st'.
Proof.
  intros Hwf Habs Hf. unfold Authenticator.login, api_login.
  destruct (query_first tbl name) as [u|] eqn:Hq.
  2: { rewrite (abs_missing _ _ _ Habs Hq).
       by rewrite (run_handler_no_flush _ _ _ (login_plan_unknown cfg now data tbl name pw Hf Hq)). }
  destruct (abs_found _ _ _ _ Habs Hq) as [a [Ha Hrel]]. rewrite Ha, <-(rel_locked u a now Hrel).
  destruct Hrel as (Hc & Hn & Hlk).
  destruct (is_locked u now) eqn:Hl.
  { apply is_locked_true in Hl as [t [Hlt Hnow]].
    by rewrite (run_handler_no_flush _ _ _ (login_plan_locked cfg now data tbl name pw u t Hf Hq Hlt Hnow)). }
  rewrite <-(Hc pw). destruct (check_password u pw) eqn:Hcp.
  { erewrite run_handler_update; [|exact (login_plan_success cfg now data tbl name pw u Hf Hq Hl Hcp)
                                 |done|by eapply query_first_In|done|done].
    split; [done|]. eapply abs_replace; eauto. split_and!; [intros q; apply Hc|done|done]. }
  pose proof (login_plan_wrong cfg now data tbl name pw u _ Hf Hq Hl Hcp Hn) as Hp.
  destruct (_ >=? _); (erewrite run_handler_update; [|exact Hp|done|by eapply query_first_In|done|done]);
    (split; [done|]); eapply abs_replace; eauto; split_and!; try done; intros q; apply Hc.
Qed.

(** C8: Login refines the spec's Login (§4.1): for a request whose username
    and password are both present, the status code of [api_login] is the
    outcome of the abstract login and the new table implements the new
    abstract state. *)
Theorem api_login_refines now data tbl st name pw :
  table_wf tbl -> abs tbl st -> login_fields data name pw ->
  let '(r, tbl') := api_login cfg now data tbl in
  let '(o, st') := Authenticator.login password_key cfg st now name pw in
  classify r = o /\ abs tbl' st'.
Proof. exact (login_step_refines now data tbl st name pw). Qed.

Lemma register_step_refines s data tbl st :
  table_wf tbl -> abs tbl st ->
  let '(r, tbl') := api_register s data tbl in
  let '(o, st') := Authenticator.register password_key st (default "" (dict_get data "username"))
                                                   (default "" (dict_get data "password")) in
  classify r = o /\ abs tbl' st'.
Proof.
  intros Hwf Habs. unfold api_register, run_handler, api_register_plan, Authenticator.register.
  rewrite !truthy_value_default.
  set (name := default "" (dict_get data "username")). set (pw := default "" (dict_get data "password")).
  destruct (decide (name = ""%string)) as [Hn|Hn].
  { rewrite (bool_decide_true (name = _)), (bool_decide_true (_ \/ _)) by auto. done. }
  destruct (decide (pw = ""%string)) as [Hp|Hp].
  { rewrite (bool_decide_false (name = _)), (bool_decide_true (pw = _)), (bool_decide_true (_ \/ _)) by auto.
    done. }
  rewrite (bool_decide_false (name = _)), (bool_decide_false (pw = _)), (bool_decide_false (_ \/ _))
    by naive_solver.
  destruct (query_first tbl name) as [u|] eqn:Hq.
  - by destruct (abs_found _ _ _ _ Habs Hq) as [a [-> _]].
  - rewrite (abs_missing _ _ _ Habs Hq). simpl. unfold insert_row.
    apply query_first_None in Hq. rewrite bool_decide_false by done. split; [done|].
    apply (abs_append _ _ (mkUser (new_rowid tbl) name (generate_password_hash s pw) (Some 0) None)); [done|done|].
    split_and!; [|done|done]. intros q. apply check_generate.
Qed.

(** C16: Register refines the spec's Register (§4.1) on every request body,
    a missing field read as the empty string: same outcome, and the new row
    implements the new abstract user. *)
Theorem api_register_refines s data tbl st :
  table_wf tbl -> abs tbl st ->
  let '(r, tbl') := api_register s data tbl in
  let '(o, st') := Authenticator.register password_key st (default "" (dict_get data "username"))
                                                   (default "" (dict_get data "password")) in
  classify r = o /\ abs tbl' st'.
Proof. exact (register_step_refines s data tbl st). Qed.

Lemma reset_step_refines s now data tbl st :
  table_wf tbl -> abs tbl st ->
  let '(r, tbl') := api_reset_password s now data tbl in
  let '(o, st') := Authenticator.reset_password password_key st now
                     (default "" (dict_get data "username")) (default "" (dict_get data "old_password"))
                     (default "" (dict_get data "new_password")) in
  classify r = o /\ abs tbl' st'.
Proof.
  intros Hwf Habs. unfold api_reset_password, run_handler, api_reset_password_plan, Authenticator.reset_password.
  rewrite !truthy_value_default.
  set (name := default "" (dict_get data "username")).
  set (old_pw := default "" (dict_get data "old_password")).
  set (new_pw := default "" (dict_get data "new_password")).
  destruct (decide (name = ""%string)) as [Hn|Hn].
  { by rewrite (bool_decide_true (name = _)), (bool_decide_true (_ \/ _)) by auto. }
  destruct (decide (old_pw = ""%string)) as [Ho|Ho].
  { by rewrite (bool_decide_false (name = _)), (bool_decide_true (old_pw = _)),
      (bool_decide_true (_ \/ _)) by auto. }
  destruct (decide (new_pw = ""%string)) as [Hw|Hw].
  { by rewrite (bool_decide_false (name = _)), (bool_decide_false (old_pw = _)),
      (bool_decide_true (new_pw = _)), (bool_decide_true (_ \/ _)) by auto. }
  rewrite (bool_decide_false (name = _)), (bool_decide_false (old_pw = _)), (bool_decide_false (new_pw = _)),
    (bool_decide_false (_ \/ _)) by naive_solver.
  destruct (query_first tbl name) as [u|] eqn:Hq; [|by rewrite (abs_missing _ _ _ Habs Hq)].
  destruct (abs_found _ _ _ _ Habs Hq) as [a [-> Hrel]].
  rewrite <-(rel_locked u a now Hrel). destruct Hrel as (Hc & Hfl & Hlk).
  rewrite <-(Hc old_pw). destruct (check_password u old_pw); [|done]. simpl.
  destruct (is_locked u now); [done|].
  pose proof (query_first_Some _ _ _ Hq) as [Hin Hname].
  rewrite flush_update_apply by (apply Hwf || done). split; [done|].
  eapply abs_replace; eauto. split_and!; [|done|done]. intros q. apply check_generate.
Qed.

(** C17: ResetPassword refines the spec's ResetPassword (§4.1) on every
    request body: same outcome, including the order of the checks (unknown
    name or wrong old password before the lock), and the new row implements
    the new abstract user. *)
Theorem api_reset_password_refines s now data tbl st :
  table_wf tbl -> abs tbl st ->
  let '(r, tbl') := api_reset_password s now data tbl in
  let '(o, st') := Authenticator.reset_password password_key st now
                     (default "" (dict_get data "username")) (default "" (dict_get data "old_password"))
                     (default "" (dict_get data "new_password")) in
  classify r = o /\ abs tbl' st'.
Proof. exact (reset_step_refines s now data tbl st). Qed.
End Refinement.

(** ** Sessions refine runs of the abstract authenticator

    A client session is a sequence of operations, each sent as the JSON
    request the pages send; the abstract run applies the same operations
    to the abstract state.  The simulation keeps [abs] and [table_wf]
    from one request to the next. *)
Section SessionRefinement.
Context `{PasswordHasher} (cfg : Config).
Implicit Types (tbl : Table) (st : AState).

Inductive AReq :=
| ARegister (name pw : string)
| ALogin (name pw : string)
| AReset (name old_pw new_pw : string).

(** The request a client sends for an operation. *)
Definition http_of (r : AReq) : HttpRequest :=
  match r with
  | ARegister name pw => mkHttpRequest "POST" "/api/register" (Some (login_request name pw))
  | ALogin name pw => mkHttpRequest "POST" "/api/login" (Some (login_request name pw))
  | AReset name old_pw new_pw => mkHttpRequest "POST" "/api/reset" (Some (reset_request name old_pw new_pw))
  end.

Definition a_step st (now : datetime) (r : AReq) : Outcome * AState :=
  match r with
  | ARegister name pw => Authenticator.register password_key st name pw
  | ALogin name pw => Authenticator.login password_key cfg st now name pw
  | AReset name old_pw new_pw => Authenticator.reset_password password_key st now name old_pw new_pw
  end.

Fixpoint a_run st (reqs : list (Salt * datetime * AReq)) : list Outcome * AState :=
  match reqs with
  | [] => ([], st)
  | (_, now, r) :: rest =>
      let '(o, st1) := a_step st now r in
      let '(os, st2) := a_run st1 rest in
      (o :: os, st2)
  end.

(** The spec's Login has no validation step: a login names an account. *)
Definition login_named (r : AReq) : Prop :=
  match r with ALogin name pw => name <> ""%string /\ pw <> ""%string | _ => True end.

Lemma a_step_refines s now r tbl st :
  table_wf tbl -> abs tbl st -> login_named r ->
  let '(resp, tbl') := app_handle cfg s now (http_of r) tbl in
  let '(o, st') := a_step st now r in
  classify resp = o /\ abs tbl' st'.
Proof.
  intros Hwf Habs Hr. destruct r as [name pw|name pw|name old_pw new_pw]; simpl http_of.
  - rewrite app_handle_register. exact (register_step_refines s (login_request name pw) tbl st Hwf Habs).
  - rewrite app_handle_login. destruct Hr as [Hn Hp].
    exact (login_step_refines cfg now _ tbl st name pw Hwf Habs (login_request_fields name pw Hn Hp)).
  - rewrite app_handle_reset.
    exact (reset_step_refines s now (reset_request name old_pw new_pw) tbl st Hwf Habs).
Qed.

(** C18: Forward simulation of sessions: served one after the other through
    the router, any sequence of registrations, logins naming an account
    and resets answers, request by request, the outcomes of the same
    operations run on the abstract authenticator, and the final table
    implements the final abstract state. *)
Theorem serve_refines tbl st (reqs : list (Salt * datetime * AReq)) :
  table_wf tbl -> abs tbl st -> Forall (fun q => login_named q.2) reqs ->
  let '(rs, tbl') := serve cfg (map (fun q => (q.1, http_of q.2)) reqs) tbl in
  let '(os, st') := a_run st reqs in
  map classify rs = os /\ abs tbl' st'.
Proof.
  intros Hwf Habs Hall. revert tbl st Hwf Habs.
  induction Hall as [|[[s now] r] reqs Hr _ IH]; intros tbl st Hwf Habs; [done|]. simpl.
  pose proof (a_step_refines s now r tbl st Hwf Habs Hr) as Hstep.
  pose proof (app_handle_keeps_wf cfg s now (http_of r) tbl Hwf) as Hwf1.
  destruct (app_handle cfg s now (http_of r) tbl) as [resp tbl1].
  destruct (a_step st now r) as [o st1]. destruct Hstep as [Ho Habs1].
  specialize (IH tbl1 st1 Hwf1 Habs1).
  destruct (serve _ _ tbl1) as [rs tbl2]. destruct (a_run st1 reqs) as [os st2].
  destruct IH as [<- Habs2]. simpl. by rewrite Ho.
Qed.
End SessionRefinement.

Import Fixtures.

Definition alice_abs : AUser := mkAUser "p1" 0 None.

Lemma alice_abs_rel : rel alice alice_abs.
Proof. split_and!; [intros q; reflexivity|reflexivity|reflexivity]. Qed.

Lemma api_login_refines_witness :
  let '(r, tbl') := api_login cfg0 100 (login_request "alice" "bad") [alice] in
  let '(o, st') := Authenticator.login password_key cfg0 {["alice" := alice_abs]} 100 "alice" "bad" in
  classify r = o /\ abs tbl' st'.
Proof. apply api_login_refines; [concrete | apply (abs_singleton alice), alice_abs_rel | concrete]. Defined.

Lemma api_register_refines_witness :
  let '(r, tbl') := api_register salt0 (login_request "bob" "pw") [alice] in
  let '(o, st') := Authenticator.register password_key {["alice" := alice_abs]}
                     (default "" (dict_get (login_request "bob" "pw") "username"))
                     (default "" (dict_get (login_request "bob" "pw") "password")) in
  classify r = o /\ abs tbl' st'.
Proof. apply api_register_refines; [concrete | apply (abs_singleton alice), alice_abs_rel]. Defined.

Lemma api_reset_password_refines_witness :
  let data := reset_request "alice" "p1" "p2" in
  let '(r, tbl') := api_reset_password salt0 100 data [alice] in
  let '(o, st') := Authenticator.reset_password password_key {["alice" := alice_abs]} 100
                     (default "" (dict_get data "username")) (default "" (dict_get data "old_password"))
                     (default "" (dict_get data "new_password")) in
  classify r = o /\ abs tbl' st'.
Proof. apply api_reset_password_refines; [concrete | apply (abs_singleton alice), alice_abs_rel]. Defined.

Lemma serve_refines_witness :
  let reqs := [(salt0, 100, ALogin "alice" "bad"); (salt0, 200, AReset "alice" "p1" "p2");
               (salt0, 300, ALogin "alice" "p2")] in
  let '(rs, tbl') := serve cfg0 (map (fun q => (q.1, http_of q.2)) reqs) [alice] in
  let '(os, st') := a_run cfg0 {["alice" := alice_abs]} reqs in
  map classify rs = os /\ abs tbl' st'.
Proof.
  apply serve_refines; [concrete | apply (abs_singleton alice), alice_abs_rel |].
  repeat constructor; simpl; concrete.
Defined.
