(* ===== verification/Concurrency.v ===== *)
(** * Concurrency: interleaved requests against one database (spec §5)

    [app.run()] serves requests on several threads, each with its own
    SQLAlchemy session over the same SQLite file.  A JSON view reads the
    row it needs with one [SELECT] (pysqlite opens the write transaction only
    at the first [INSERT]/[UPDATE], so the read is not locked), computes in
    Python, and its [db.session.commit()] writes the computed values later.
    [thread_step] is the move of one thread: it either runs its view on the
    current table ([step_read], the plan of Api.v) or commits what it
    computed ([step_commit]; [step_commit_rejected] when the database refuses
    the flush, [step_store_error] for any other database failure, both
    answered [500] with the session rolled back); [step] adds the clock,
    which moves freely.  The threads run the three JSON views and the
    listing; the page views read no shared state.  Each thread moves at
    most twice, the threads can always be scheduled until every request is
    answered, and the schedule that serves them one at a time computes the
    sequential handlers of Api.v.
    Every reachable table is well formed (the [UNIQUE] index keeps usernames
    unique even under races), but the read-modify-write of the counter is not
    serialised: two concurrent wrong passwords can count once, a batch of
    concurrent guesses of any size is checked in full while the counter
    moves by one, and a success whose commit follows a concurrent lock
    leaves the lock in place. *)
From stdpp Require Import relations.
From S2P Require Import Prelude Config Hasher User Store Api Lockout.
Import Config.

Section Interleaving.
Context `{PasswordHasher} (cfg : Config).

Inductive Req :=
| RRegister (s : Salt) (data : PyDict)
| RLogin (data : PyDict)
| RReset (s : Salt) (data : PyDict)
| RGetUsers.

(** The view of a request, run on the table it reads. *)
Definition view (now : datetime) (r : Req) : Table -> Response * option Flush :=
  match r with
  | RRegister s data => api_register_plan s data
  | RLogin data => api_login_plan cfg now data
  | RReset s data => api_reset_password_plan s now data
  | RGetUsers => fun tbl => (api_get_users now tbl, None)
  end.

Inductive Thread :=
| Waiting (r : Req)
| Computed (resp : Response) (fl : option Flush)
| Answered (resp : Response).

Record World := mkWorld { table : Table; clock : datetime; threads : list Thread }.

Definition after_read (now : datetime) (r : Req) (tbl : Table) : Thread :=
  let '(resp, fl) := view now r tbl in Computed resp fl.

(** The moves of the request threads: a view runs on the current table, or
    its commit is flushed, refused by the database, or fails. *)
Inductive thread_step : World -> World -> Prop :=
| step_read w i r :
    threads w !! i = Some (Waiting r) ->
    thread_step w (mkWorld (table w) (clock w) (<[i := after_read (clock w) r (table w)]> (threads w)))
| step_commit w i resp fl tbl' :
    threads w !! i = Some (Computed resp fl) -> commit (table w) fl = Some tbl' ->
    thread_step w (mkWorld tbl' (clock w) (<[i := Answered resp]> (threads w)))
| step_commit_rejected w i resp fl :
    threads w !! i = Some (Computed resp fl) -> commit (table w) fl = None ->
    thread_step w (mkWorld (table w) (clock w) (<[i := Answered internal_server_error]> (threads w)))
| step_store_error w i resp fl :
    threads w !! i = Some (Computed resp fl) ->
    thread_step w (mkWorld (table w) (clock w) (<[i := Answered internal_server_error]> (threads w))).

(** A step of the server: a thread moves, or time passes. *)
Inductive step : World -> World -> Prop :=
| step_thread w w' : thread_step w w' -> step w w'
| step_clock w t : step w (mkWorld (table w) t (threads w)).

(** ** The invariant of reachable worlds *)

Definition thread_ok (th : Thread) : Prop :=
  match th with Computed _ fl => flush_ok fl | _ => True end.

Definition world_ok (w : World) : Prop := table_wf (table w) /\ Forall thread_ok (threads w).

Lemma view_ok now r tbl : table_wf tbl -> flush_ok (snd (view now r tbl)).
Proof.
  intros Hwf. destruct r; simpl.
  - apply api_register_plan_ok.
  - by apply api_login_plan_ok.
  - apply api_reset_password_plan_ok.
  - done.
Qed.

Lemma Forall_insert_ok (ths : list Thread) i th :
  Forall thread_ok ths -> thread_ok th -> Forall thread_ok (<[i := th]> ths).
Proof. intros Hall Hth. by apply Forall_insert. Qed.

Lemma thread_step_ok w w' : thread_step w w' -> world_ok w -> world_ok w'.
Proof.
  intros Hstep [Hwf Hths]. destruct Hstep as [w i r Hi|w i resp fl tbl' Hi Hc|w i resp fl Hi Hc|w i resp fl Hi];
    split; simpl; try done; try (apply Forall_insert_ok; [done|]); try done.
  all: match goal with
       | Hc : commit _ _ = Some _ |- _ =>
           eapply commit_wf; [done| |done]; rewrite Forall_lookup in Hths; exact (Hths i _ Hi)
       | |- thread_ok (after_read ?now ?r ?tbl) =>
           unfold after_read; pose proof (view_ok now r tbl Hwf) as Hok; by destruct (view _ _ _)
       end.
Qed.

Lemma step_ok w w' : step w w' -> world_ok w -> world_ok w'.
Proof. destruct 1 as [w w' Hs|w t]; [by apply thread_step_ok|done]. Qed.

Lemma rtc_step_ok w w' : rtc step w w' -> world_ok w -> world_ok w'.
Proof. induction 1 as [|w1 w2 w3 Hs _ IH]; [done|]. intros Hok. by apply IH, (step_ok w1). Qed.

(** C10: Every world reachable from a well-formed table and any requests
    has a well-formed table: usernames and ids unique, counters non-null and
    non-negative, whatever the interleaving (spec §3: usernames are unique
    at all times). *)
Theorem reachable_wf (w w' : World) :
  table_wf (table w) -> Forall (fun th => exists r, th = Waiting r) (threads w) ->
  rtc step w w' -> table_wf (table w').
Proof.
  intros Hwf Hwait Hrtc. apply (rtc_step_ok w w' Hrtc).
  split; [done|]. refine (Forall_impl _ _ Hwait). by intros th [r ->].
Qed.
End Interleaving.

(** ** Serial schedules compute the sequential handlers

    Served one at a time, each view reading and then committing before the
    next one reads, the threads answer exactly what the handlers of Api.v
    answer one after the other, and leave the table they leave: the
    sequential semantics is one of the behaviours of the concurrent one. *)
Section Serial.
Context `{PasswordHasher} (cfg : Config).
Implicit Types (tbl : Table).

(** The handler a request runs when it is served alone. *)
Definition serial_handle (now : datetime) (r : Req) (tbl : Table) : Response * Table :=
  match r with
  | RRegister s data => api_register s data tbl
  | RLogin data => api_login cfg now data tbl
  | RReset s data => api_reset_password s now data tbl
  | RGetUsers => (api_get_users now tbl, tbl)
  end.

Fixpoint serial_run (now : datetime) (rs : list Req) (tbl : Table) : list Response * Table :=
  match rs with
  | [] => ([], tbl)
  | r :: rs' =>
      let '(resp, tbl1) := serial_handle now r tbl in
      let '(resps, tbl2) := serial_run now rs' tbl1 in
      (resp :: resps, tbl2)
  end.

Lemma insert_middle {A} (l1 l2 : list A) x y : <[length l1 := x]> (l1 ++ y :: l2) = l1 ++ x :: l2.
Proof. by rewrite <-(Nat.add_0_r (length l1)), insert_app_r. Qed.

Lemma serial_handle_plan now r tbl : serial_handle now r tbl = run_handler (view cfg now r) tbl.
Proof. by destruct r. Qed.

(** The next waiting request, after [done] answered ones, reads and
    commits. *)
Lemma serial_one tbl now (done : list Response) r rest :
  let '(resp, tbl') := serial_handle now r tbl in
  rtc (step cfg) (mkWorld tbl now (map Answered done ++ Waiting r :: rest))
                 (mkWorld tbl' now (map Answered (done ++ [resp]) ++ rest)).
Proof.
  destruct (serial_handle now r tbl) as [resp tbl'] eqn:Hsh.
  rewrite serial_handle_plan in Hsh. unfold run_handler in Hsh.
  rewrite map_app, <-app_assoc. simpl.
  set (pre := map Answered done).
  assert (forall th ths, (pre ++ th :: ths) !! length pre = Some th) as Hi
    by (intros; by apply list_lookup_middle).
  destruct (view cfg now r tbl) as [resp0 fl] eqn:Hv.
  eapply rtc_l; [apply step_thread, (step_read cfg _ (length pre) r), Hi|]. simpl.
  rewrite insert_middle. unfold after_read. rewrite Hv.
  destruct (commit tbl fl) as [tbl1|] eqn:Hc; injection Hsh as <- <-; apply rtc_once, step_thread.
  - pose proof (step_commit cfg (mkWorld tbl now (pre ++ Computed resp0 fl :: rest))
                  (length pre) resp0 fl tbl1 (Hi _ _) Hc) as Hs.
    simpl in Hs. by rewrite insert_middle in Hs.
  - pose proof (step_commit_rejected cfg (mkWorld tbl now (pre ++ Computed resp0 fl :: rest))
                  (length pre) resp0 fl (Hi _ _) Hc) as Hs.
    simpl in Hs. by rewrite insert_middle in Hs.
Qed.

Lemma serial_from tbl now (done : list Response) rs :
  let '(resps, tbl') := serial_run now rs tbl in
  rtc (step cfg) (mkWorld tbl now (map Answered done ++ map Waiting rs))
                 (mkWorld tbl' now (map Answered (done ++ resps))).
Proof.
  revert tbl done. induction rs as [|r rs IH]; intros tbl done; simpl.
  - by rewrite !app_nil_r.
  - pose proof (serial_one tbl now done r (map Waiting rs)) as H1.
    destruct (serial_handle now r tbl) as [resp tbl1].
    specialize (IH tbl1 (done ++ [resp])).
    destruct (serial_run now rs tbl1) as [resps tbl2].
    rewrite <-app_assoc in IH. by eapply rtc_trans.
Qed.

(** The concurrent semantics contains the sequential one: from a
    world where requests wait on a table, the schedule that serves them one
    after the other (read, then commit, then the next) answers each with
    the response of its handler in Api.v run on the table the previous one
    left, and ends on the table the handlers leave. *)
Theorem serial_schedule tbl now rs :
  let '(resps, tbl') := serial_run now rs tbl in
  rtc (step cfg) (mkWorld tbl now (map Waiting rs)) (mkWorld tbl' now (map Answered resps)).
Proof. exact (serial_from tbl now [] rs). Qed.
End Serial.

(** ** Termination and progress of the request threads

    Each request thread takes at most two steps: its view runs, then its
    commit is flushed, refused or fails.  [pending] counts the steps the
    threads still have to take; every [thread_step] lowers it by one, and
    a world in which no thread can move has answered every request. *)
Section Progress.
Context `{PasswordHasher} (cfg : Config).

Definition thread_work (th : Thread) : nat :=
  match th with Waiting _ => 2 | Computed _ _ => 1 | Answered _ => 0 end.

Fixpoint pending (ths : list Thread) : nat :=
  match ths with [] => 0 | th :: ths' => thread_work th + pending ths' end%nat.

Definition answered (th : Thread) : Prop := exists resp, th = Answered resp.

Lemma pending_insert ths i th th' :
  ths !! i = Some th -> (pending (<[i := th']> ths) + thread_work th = pending ths + thread_work th')%nat.
Proof.
  revert i. induction ths as [|x ths IH]; intros [|i] Hi; simplify_eq/=; [lia|].
  specialize (IH i Hi). lia.
Qed.

Lemma pending_insert_S ths i th th' :
  ths !! i = Some th -> thread_work th = S (thread_work th') ->
  S (pending (<[i := th']> ths)) = pending ths.
Proof. intros Hi Hw. pose proof (pending_insert ths i th th' Hi). lia. Qed.

(** Every move of a thread consumes exactly one of the pending steps. *)
Lemma thread_step_pending w w' :
  thread_step cfg w w' -> S (pending (threads w')) = pending (threads w).
Proof.
  destruct 1 as [w i r Hi|w i resp fl tbl' Hi _|w i resp fl Hi _|w i resp fl Hi];
    simpl; apply (pending_insert_S _ _ _ _ Hi); [|done..].
  unfold after_read. by destruct (view _ _ _ _).
Qed.

#[global] Instance answered_dec th : Decision (answered th).
Proof. destruct th; [right; by intros [? ?]..|left; by eexists]. Qed.

Lemma nf_answered w : nf (thread_step cfg) w -> Forall answered (threads w).
Proof.
  intros Hnf. apply Forall_lookup. intros i th Hi.
  destruct th as [r|resp fl|resp]; [exfalso; apply Hnf| |by eexists].
  - eexists. by apply step_read.
  - exfalso. apply Hnf. destruct (commit (table w) fl) as [tbl'|] eqn:Hc;
      eexists; [by eapply step_commit|by eapply step_commit_rejected].
Qed.

Lemma not_answered_red w : ~ Forall answered (threads w) -> red (thread_step cfg) w.
Proof.
  intros Hnot. apply not_Forall_Exists, list.Exists_exists in Hnot as (th & Hin & Hth); [|apply _].
  apply list_elem_of_lookup in Hin as [i Hi].
  destruct th as [r|resp fl|resp]; [| |by destruct Hth; eexists].
  - eexists. by apply step_read.
  - destruct (commit (table w) fl) as [tbl'|] eqn:Hc; eexists; [by eapply step_commit|by eapply step_commit_rejected].
Qed.

Lemma thread_step_clock w w' : thread_step cfg w w' -> clock w' = clock w.
Proof. by destruct 1. Qed.

Lemma pending_answered ths : pending ths = 0%nat <-> Forall answered ths.
Proof.
  induction ths as [|[r|resp fl|resp] ths IH]; simpl.
  - split; [constructor|done].
  - split; [lia|]. intros Hall. inversion Hall as [|? ? [? ?] _]. done.
  - split; [lia|]. intros Hall. inversion Hall as [|? ? [? ?] _]. done.
  - rewrite list.Forall_cons, <-IH. split; [intros ->; split; [by eexists|done]|by intros [_ ->]].
Qed.

(** Termination: the request threads of a world can move at most
    [pending] times in all, two moves for a request still waiting and
    one for a computed response; a run of [k] moves leaves exactly
    [pending - k] of them.  In particular no interleaving of request
    steps runs forever. *)
Theorem thread_steps_bounded k w w' :
  nsteps (thread_step cfg) k w w' -> (k + pending (threads w') = pending (threads w))%nat.
Proof.
  induction 1 as [|k w1 w2 w3 Hs _ IH]; [done|].
  pose proof (thread_step_pending w1 w2 Hs). lia.
Qed.

(** Liveness: from any world, the threads can be scheduled so that
    every request is answered, after exactly [pending] moves and without
    the clock moving; a world where no thread can move has answered all
    of them ([nf_answered]). *)
Theorem requests_answered w :
  exists w', nsteps (thread_step cfg) (pending (threads w)) w w' /\
    Forall answered (threads w') /\ clock w' = clock w.
Proof.
  remember (pending (threads w)) as n eqn:Hn. revert w Hn.
  induction n as [|n IH]; intros w Hn.
  - exists w. split_and!; [constructor|by apply pending_answered|done].
  - destruct (decide (Forall answered (threads w))) as [Hall|Hnot].
    { apply pending_answered in Hall. lia. }
    destruct (not_answered_red w Hnot) as [w1 Hs].
    pose proof (thread_step_pending w w1 Hs) as Hp.
    destruct (IH w1) as (w2 & Hrun & Hall & Hc); [lia|].
    exists w2. split_and!; [by eapply nsteps_l|done|].
    by rewrite Hc, (thread_step_clock w w1 Hs).
Qed.
End Progress.

Section Races.
Context `{PasswordHasher} (cfg : Config).

(** C4: Lost update (spec §5 requires that concurrent logins not
    under-count).  Two wrong passwords for the same unlocked account, sent
    at once: in the interleaving where both views read the row before
    either commits, both answer [401] and the counter rises by one only,
    while the same two requests served one after the other raise it by
    two. *)
Theorem lost_update tbl now name pw u n :
  table_wf tbl -> query_first tbl name = Some u -> is_locked u now = false ->
  check_password u pw = false -> failed_login_attempts u = Some n ->
  name <> ""%string -> pw <> ""%string -> n + 2 < LOCKOUT_ATTEMPTS cfg ->
  (exists w, rtc (step cfg) (mkWorld tbl now [Waiting (RLogin (login_request name pw));
                                            Waiting (RLogin (login_request name pw))]) w /\
     threads w = [Answered (json_error 401 "Invalid credentials");
                  Answered (json_error 401 "Invalid credentials")] /\
     query_first (table w) name = Some (set_failed_login_attempts u (Some (n + 1)))) /\
  (let '(_, tbl2) := login_run cfg [(now, login_request name pw); (now, login_request name pw)] tbl in
   query_first tbl2 name = Some (set_failed_login_attempts u (Some (n + 2)))).
Proof.
  intros Hwf Hq Hl Hc Hn Hname Hpw Hlt.
  pose proof (login_request_fields name pw Hname Hpw) as Hf.
  pose proof (query_first_Some _ _ _ Hq) as [Hin Hun].
  set (u1 := set_failed_login_attempts u (Some (n + 1))).
  assert (row_ok u1) as Hok1.
  { destruct (row_of_wf tbl name u Hwf Hq) as [Hid Hr]. rewrite Hn in Hr. split; simpl; lia. }
  split.
  - set (r401 := json_error 401 "Invalid credentials").
    assert (after_read cfg now (RLogin (login_request name pw)) tbl = Computed r401 (flush_update u u1)) as Hread.
    { unfold after_read. simpl. erewrite login_plan_wrong by eauto. by rewrite geb_false by lia. }
    exists (mkWorld (replace_user tbl u u1) now [Answered r401; Answered r401]). split_and!; [|done|].
    + eapply rtc_l; [apply step_thread, (step_read cfg _ 0 (RLogin (login_request name pw))); done|]. simpl. rewrite Hread.
      eapply rtc_l; [apply step_thread, (step_read cfg _ 1 (RLogin (login_request name pw))); done|]. simpl. rewrite Hread.
      eapply rtc_l; [eapply step_thread, (step_commit cfg _ 0); [done|by apply flush_update_apply; [apply Hwf| | |]]|].
      simpl. eapply rtc_l; [eapply step_thread, (step_commit cfg _ 1); [done|by apply commit_flush_update_again]|].
      apply rtc_refl.
    + simpl. rewrite query_first_replace by done. by rewrite bool_decide_true.
  - cbn [login_run]. rewrite (wrong_step_count cfg now _ tbl name pw u n Hwf Hf Hq Hl Hc Hn) by lia.
    cbn -[api_login]. fold u1.
    destruct (replace_step tbl name u u1 Hwf Hq) as [Hwf1 Hq1]; [done|done|done|].
    assert (is_locked u1 now = false) as Hl1 by apply Hl.
    rewrite (wrong_step_count cfg now _ _ name pw u1 (n + 1) Hwf1 Hf Hq1 Hl1 Hc eq_refl) by lia.
    cbn -[replace_user query_first].
    destruct (replace_step _ name u1 (set_failed_login_attempts u1 (Some (n + 1 + 1))) Hwf1 Hq1)
      as [_ Hq2]; [done|done| |].
    { unfold row_ok, u1 in *. simpl in *. lia. }
    rewrite Hq2. unfold u1. rewrite set_failed_twice. do 3 f_equal. lia.
Qed.

(** C20: A successful login racing with the attempt that locks the account:
    the right password and a wrong one are sent at once when the counter
    is one below the threshold.  Both views read the unlocked row; the
    wrong password commits the counter and the lock, then the success
    commits only the column it changed, the counter, set to [0].  The
    client is told [200 Login successful], yet the row keeps the lock with
    a zero counter: the account stays locked after a successful login
    (spec §4.1: a match clears [lockoutUntil]), and the lock is no longer
    backed by [LOCKOUT_ATTEMPTS] failures. *)
Theorem success_race_stays_locked tbl now name pw_bad pw_good u n :
  table_wf tbl -> query_first tbl name = Some u -> lockout_until u = None ->
  check_password u pw_bad = false -> check_password u pw_good = true ->
  failed_login_attempts u = Some n -> n <> 0 -> LOCKOUT_ATTEMPTS cfg <= n + 1 ->
  name <> ""%string -> pw_bad <> ""%string -> pw_good <> ""%string ->
  exists w, rtc (step cfg) (mkWorld tbl now [Waiting (RLogin (login_request name pw_bad));
                                            Waiting (RLogin (login_request name pw_good))]) w /\
    threads w = [Answered (json_error 403 "Account locked due to too many failed attempts");
                 Answered (json_message 200 "Login successful")] /\
    query_first (table w) name =
      Some (set_lockout_until (set_failed_login_attempts u (Some 0)) (Some (now + lockout_duration cfg))).
Proof.
  intros Hwf Hq Hlk Hbad Hgood Hn Hn0 Hge Hname Hpb Hpg.
  pose proof (query_first_Some _ _ _ Hq) as [Hin Hun].
  assert (is_locked u now = false) as Hl by (unfold is_locked; by rewrite Hlk).
  set (u2 := set_lockout_until (set_failed_login_attempts u (Some (n + 1))) (Some (now + lockout_duration cfg))).
  set (u0 := set_lockout_until (set_failed_login_attempts u (Some 0)) None).
  set (r403 := json_error 403 "Account locked due to too many failed attempts").
  set (r200 := json_message 200 "Login successful").
  assert (after_read cfg now (RLogin (login_request name pw_bad)) tbl = Computed r403 (flush_update u u2)) as Hr1.
  { unfold after_read. simpl.
    erewrite (login_plan_wrong cfg now _ tbl name pw_bad u n (login_request_fields name pw_bad Hname Hpb)) by done.
    by rewrite geb_true by lia. }
  assert (after_read cfg now (RLogin (login_request name pw_good)) tbl = Computed r200 (flush_update u u0)) as Hr2.
  { unfold after_read. simpl.
    by rewrite (login_plan_success cfg now _ tbl name pw_good u (login_request_fields name pw_good Hname Hpg) Hq Hl Hgood). }
  assert (dirty_columns u u0 = [ColFailed (Some 0)]) as Hd.
  { unfold dirty_columns, u0. simpl. rewrite Hn, Hlk, (bool_decide_true (password_hash u = _)) by done.
    rewrite bool_decide_false by congruence. by rewrite bool_decide_true. }
  exists (mkWorld (replace_user tbl u (apply_columns u2 (dirty_columns u u0))) now [Answered r403; Answered r200]).
  split_and!; [|done|].
  - eapply rtc_l; [apply step_thread, (step_read cfg _ 0 (RLogin (login_request name pw_bad))); done|].
    simpl. rewrite Hr1.
    eapply rtc_l; [apply step_thread, (step_read cfg _ 1 (RLogin (login_request name pw_good))); done|].
    simpl. rewrite Hr2.
    eapply rtc_l; [eapply step_thread, (step_commit cfg _ 0); [done|by apply flush_update_apply; [apply Hwf| | |]]|].
    simpl. eapply rtc_l; [eapply step_thread, (step_commit cfg _ 1); [done|by apply commit_flush_update_stale]|].
    apply rtc_refl.
  - simpl. rewrite Hd. unfold u2. simpl.
    rewrite query_first_replace by done. rewrite bool_decide_true by congruence. by destruct u.
Qed.

(** ** Batches of concurrent guesses

    A batch of requests that all read the same table before any of them
    commits: every view computes on that table, then the commits land one
    after the other.  When each commit writes what the first one wrote,
    the batch leaves the table of a single request. *)

(** Every waiting request of the batch reads the same table. *)
Lemma read_all tbl now (pre : list Thread) rs th :
  Forall (fun r => after_read cfg now r tbl = th) rs ->
  rtc (step cfg) (mkWorld tbl now (pre ++ map Waiting rs))
                 (mkWorld tbl now (pre ++ replicate (length rs) th)).
Proof.
  intros Hall. revert pre. induction Hall as [|r rs Hr _ IH]; intros pre; [apply rtc_refl|].
  eapply rtc_l; [apply step_thread, (step_read cfg _ (length pre) r), list_lookup_middle; done|].
  simpl. rewrite insert_middle, Hr. specialize (IH (pre ++ [th])). rewrite <-!app_assoc in IH. exact IH.
Qed.

(** Commits that leave the table as it is answer one after the other. *)
Lemma commit_all tbl now (pre : list Thread) k resp fl :
  commit tbl fl = Some tbl ->
  rtc (step cfg) (mkWorld tbl now (pre ++ replicate k (Computed resp fl)))
                 (mkWorld tbl now (pre ++ replicate k (Answered resp))).
Proof.
  intros Hc. revert pre. induction k as [|k IH]; intros pre; [apply rtc_refl|].
  eapply rtc_l; [eapply step_thread, (step_commit cfg _ (length pre)); [apply list_lookup_middle; done|exact Hc]|].
  simpl. rewrite insert_middle. specialize (IH (pre ++ [Answered resp])). rewrite <-!app_assoc in IH. exact IH.
Qed.

(** C12: The lockout does not bound concurrent guesses (spec §5 and §8).
    Any non-empty batch of wrong passwords for one unlocked account whose
    counter is at least two below the threshold, sent at once, can be
    served so that every guess is checked and answered [401] while the
    counter rises by one only and the account stays unlocked: the number
    of passwords an attacker can try before the lock, at most
    [LOCKOUT_ATTEMPTS] when requests are served one after the other
    ([guesses_per_window]), has no bound under concurrency. *)
Theorem concurrent_guesses_unbounded tbl now name pws u n :
  table_wf tbl -> query_first tbl name = Some u -> is_locked u now = false ->
  failed_login_attempts u = Some n -> n + 1 < LOCKOUT_ATTEMPTS cfg -> name <> ""%string ->
  pws <> [] -> Forall (fun pw => pw <> ""%string /\ check_password u pw = false) pws ->
  exists w, rtc (step cfg) (mkWorld tbl now (map (fun pw => Waiting (RLogin (login_request name pw))) pws)) w /\
    threads w = replicate (length pws) (Answered (json_error 401 "Invalid credentials")) /\
    query_first (table w) name = Some (set_failed_login_attempts u (Some (n + 1))).
Proof.
  intros Hwf Hq Hl Hn Hlt Hname Hne Hall.
  pose proof (query_first_Some _ _ _ Hq) as [Hin Hun].
  set (u1 := set_failed_login_attempts u (Some (n + 1))).
  set (r401 := json_error 401 "Invalid credentials").
  destruct pws as [|pw0 pws]; [done|]. clear Hne.
  exists (mkWorld (replace_user tbl u u1) now (replicate (S (length pws)) (Answered r401))).
  split_and!; [|done|].
  - rewrite <-(map_map (fun pw => RLogin (login_request name pw)) Waiting).
    eapply rtc_trans; [apply (read_all tbl now []) with (th := Computed r401 (flush_update u u1))|].
    { apply Forall_map. refine (Forall_impl _ _ Hall). intros pw [Hpw Hc]. unfold after_read. simpl.
      erewrite (login_plan_wrong cfg now _ tbl name pw u n (login_request_fields name pw Hname Hpw)) by done.
      by rewrite geb_false by lia. }
    rewrite length_map. simpl.
    eapply rtc_l; [eapply step_thread, (step_commit cfg _ 0); [done|by apply flush_update_apply; [apply Hwf| | |]]|].
    simpl. apply (commit_all _ _ [Answered r401]). by apply commit_flush_update_again.
  - simpl. rewrite query_first_replace by done. by rewrite bool_decide_true.
Qed.

(** C21: Concurrent registrations of one new name: both views find the name
    free, the first commit inserts the row ([201]) and the second is refused
    by the [UNIQUE] index, which Flask answers [500]; the spec asks for a
    [ConflictError] ([409]).  The table keeps a single row for the name. *)
Theorem concurrent_register_race tbl now name pw1 pw2 (s1 s2 : Salt) :
  table_wf tbl -> query_first tbl name = None -> name <> ""%string -> pw1 <> ""%string -> pw2 <> ""%string ->
  exists w, rtc (step cfg) (mkWorld tbl now [Waiting (RRegister s1 (login_request name pw1));
                                           Waiting (RRegister s2 (login_request name pw2))]) w /\
    threads w = [Answered (json_message 201 ("User " ++ name ++ " registered successfully"));
                 Answered internal_server_error] /\
    table w = tbl ++ [mkUser (new_rowid tbl) name (generate_password_hash s1 pw1) (Some 0) None].
Proof.
  intros Hwf Hq Hname Hpw1 Hpw2.
  pose proof (query_first_None tbl name) as [Hfresh _]. specialize (Hfresh Hq).
  set (row := mkUser (new_rowid tbl) name (generate_password_hash s1 pw1) (Some 0) None).
  exists (mkWorld (tbl ++ [row]) now [Answered (json_message 201 ("User " ++ name ++ " registered successfully"));
                                     Answered internal_server_error]).
  split_and!; [|done|done].
  eapply rtc_l; [apply step_thread, (step_read cfg _ 0); done|]. simpl. unfold after_read. simpl view.
  rewrite (register_plan_new s1 _ tbl name pw1 (login_request_fields name pw1 Hname Hpw1) Hq).
  eapply rtc_l; [apply step_thread, (step_read cfg _ 1); done|]. simpl. unfold after_read. simpl view.
  rewrite (register_plan_new s2 _ tbl name pw2 (login_request_fields name pw2 Hname Hpw2) Hq).
  eapply rtc_l; [eapply step_thread, (step_commit cfg _ 0); [done|]|].
  { simpl. unfold insert_row. by rewrite bool_decide_false. }
  simpl. eapply rtc_l; [eapply step_thread, (step_commit_rejected cfg _ 1); [done|]|].
  { simpl. unfold insert_row. rewrite bool_decide_true; [done|].
    rewrite map_app. apply elem_of_app. right. by apply list_elem_of_singleton. }
  apply rtc_refl.
Qed.
End Races.

Import Fixtures.

Lemma reachable_wf_witness :
  table_wf (table (mkWorld tbl0 100 [after_read cfg0 100 (RLogin (login_request "alice" "bad")) tbl0])).
Proof.
  apply (reachable_wf cfg0 (mkWorld tbl0 100 [Waiting (RLogin (login_request "alice" "bad"))]));
    [concrete | repeat constructor; eexists; reflexivity |].
  apply rtc_once.
  apply step_thread, (step_read cfg0 (mkWorld tbl0 100 [Waiting (RLogin (login_request "alice" "bad"))]) 0). reflexivity.
Defined.

Lemma lost_update_witness :
  (exists w, rtc (step cfg0) (mkWorld tbl0 100 [Waiting (RLogin (login_request "alice" "bad"));
                                              Waiting (RLogin (login_request "alice" "bad"))]) w /\
     threads w = [Answered (json_error 401 "Invalid credentials");
                  Answered (json_error 401 "Invalid credentials")] /\
     query_first (table w) "alice" = Some (set_failed_login_attempts alice (Some (0 + 1)))) /\
  (let '(_, tbl2) := login_run cfg0 [(100, login_request "alice" "bad"); (100, login_request "alice" "bad")] tbl0 in
   query_first tbl2 "alice" = Some (set_failed_login_attempts alice (Some (0 + 2)))).
Proof. apply (lost_update cfg0 tbl0 100 "alice" "bad" alice 0); concrete. Defined.

Lemma concurrent_guesses_unbounded_witness :
  exists w, rtc (step cfg0) (mkWorld tbl0 100 (map (fun pw => Waiting (RLogin (login_request "alice" pw)))
                                                  ["x"; "y"; "z"; "w"; "v"]%string)) w /\
    threads w = replicate 5%nat (Answered (json_error 401 "Invalid credentials")) /\
    query_first (table w) "alice" = Some (set_failed_login_attempts alice (Some (0 + 1))).
Proof.
  apply (concurrent_guesses_unbounded cfg0 tbl0 100 "alice" ["x"; "y"; "z"; "w"; "v"]%string alice 0);
    [concrete..| |]; [done|repeat constructor; concrete].
Defined.

Lemma concurrent_register_race_witness :
  exists w, rtc (step cfg0) (mkWorld tbl0 100 [Waiting (RRegister salt0 (login_request "carol" "c1"));
                                             Waiting (RRegister salt0 (login_request "carol" "c2"))]) w /\
    threads w = [Answered (json_message 201 ("User " ++ "carol" ++ " registered successfully"));
                 Answered internal_server_error] /\
    table w = tbl0 ++ [mkUser (new_rowid tbl0) "carol" (generate_password_hash salt0 "c1") (Some 0) None].
Proof. apply (concurrent_register_race cfg0 tbl0 100 "carol" "c1" "c2" salt0 salt0); concrete. Defined.

Lemma success_race_stays_locked_witness :
  exists w, rtc (step cfg0) (mkWorld [set_failed_login_attempts alice (Some 2)] 100
                              [Waiting (RLogin (login_request "alice" "bad"));
                               Waiting (RLogin (login_request "alice" "p1"))]) w /\
    threads w = [Answered (json_error 403 "Account locked due to too many failed attempts");
                 Answered (json_message 200 "Login successful")] /\
    query_first (table w) "alice" =
      Some (set_lockout_until (set_failed_login_attempts (set_failed_login_attempts alice (Some 2)) (Some 0))
                              (Some (100 + lockout_duration cfg0))).
Proof.
  apply (success_race_stays_locked cfg0 _ 100 "alice" "bad" "p1" (set_failed_login_attempts alice (Some 2)) 2);
    concrete.
Defined.
